(** * Ai_CODE_COMPLETION: request orchestration of the editor front end

    A shallow embedding of [src/services/aiService.ts] and of the
    orchestration code of [src/App.tsx]: the axios configuration, the three
    AI entry points and their error re-throwing, the React state held by
    [App], its event handlers, the timer queue behind [setTimeout] and the
    Monaco text model the handlers edit.

    Asynchronous functions are terms of a small free monad [Proc]: state
    updates ([setX] calls), one constructor for an awaited HTTP call, and
    JavaScript's [throw]. The event loop [step] runs such a term until its
    next [await] and parks the continuation until the call settles. *)

From Stdlib Require Import String Ascii List Bool Arith NArith Lia QArith.
Import ListNotations.
Close Scope Q_scope.
Open Scope nat_scope.
Open Scope list_scope.
Open Scope string_scope.

Set Implicit Arguments.

(* ------------------------------------------------------------------ *)
(** ** JavaScript strings *)

Module Js.

(** [s.includes(needle)]: case-sensitive substring test. *)
Fixpoint includes (s needle : string) : bool :=
  String.prefix needle s ||
  match s with
  | EmptyString => false
  | String _ rest => includes rest needle
  end.

(** Truthiness of a string value: only [''] is falsy. *)
Definition truthy (s : string) : bool :=
  match s with EmptyString => false | _ => true end.

(** Truthiness of [string | undefined | null]. *)
Definition truthy_opt (v : option string) : bool :=
  match v with Some s => truthy s | None => false end.

(** [a || b] on strings. *)
Definition or_else (a b : string) : string := if truthy a then a else b.

(** The escape [\n] of a JavaScript string or template literal. *)
Definition nl : string := String "010"%char EmptyString.

(** The carriage return. *)
Definition cr : string := String "013"%char EmptyString.

(** [s.substring(0, start) + text + s.substring(stop)]. *)
Definition splice (s : string) (start stop : nat) (text : string) : string :=
  substring 0 start s ++ text ++ substring stop (String.length s - stop) s.

End Js.

(* ------------------------------------------------------------------ *)
(** ** The axios client *)

Module Axios.

Inductive Method := GET | POST.

(** What goes on the wire. The payload type [B] is fixed by the caller. *)
Record Request (B : Type) := {
  method : Method;
  url : string;
  headers : list (string * string);
  timeout : N;                         (* milliseconds, 0 = none *)
  data : option B
}.

(** [axios.defaults], as far as the application touches it. *)
Record Defaults := {
  d_timeout : N;
  d_headers_common : list (string * string)
}.

(** The library's own defaults before the application configures it. *)
Definition library_defaults : Defaults :=
  {| d_timeout := 0%N;
     d_headers_common := [("Accept", "application/json, text/plain, */*")] |}.

(** [obj[key] = value] on the header object. *)
Fixpoint set_header (key value : string) (hs : list (string * string))
  : list (string * string) :=
  match hs with
  | [] => [(key, value)]
  | (k, v) :: rest =>
      if String.eqb k key then (key, value) :: rest
      else (k, v) :: set_header key value rest
  end.

Fixpoint get_header (key : string) (hs : list (string * string)) : option string :=
  match hs with
  | [] => None
  | (k, v) :: rest => if String.eqb k key then Some v else get_header key rest
  end.

Definition set_timeout (ms : N) (d : Defaults) : Defaults :=
  {| d_timeout := ms; d_headers_common := d_headers_common d |}.

Definition set_common (key value : string) (d : Defaults) : Defaults :=
  {| d_timeout := d_timeout d;
     d_headers_common := set_header key value (d_headers_common d) |}.

(** App.tsx, "Configure axios defaults":
    [axios.defaults.timeout = 10000;]
    [axios.defaults.headers.common['Content-Type'] = 'application/json';]
    [axios.defaults.headers.common['Accept'] = 'application/json';] *)
Definition defaults : Defaults :=
  set_common "Accept" "application/json"
    (set_common "Content-Type" "application/json"
       (set_timeout 10000%N library_defaults)).

(** [delete obj[key]] on the header object. *)
Fixpoint remove_header (key : string) (hs : list (string * string))
  : list (string * string) :=
  match hs with
  | [] => []
  | (k, v) :: rest =>
      if String.eqb k key then remove_header key rest
      else (k, v) :: remove_header key rest
  end.

(** What the shared instance puts on the wire. No call site passes a
    config, so timeout and headers are the defaults, with one exception
    made by axios itself: a request without data goes out without
    [Content-Type]. *)
Definition dispatch (B : Type) (m : Method) (u : string) (payload : option B)
  : Request B :=
  {| method := m; url := u;
     headers :=
       match payload with
       | Some _ => d_headers_common defaults
       | None => remove_header "Content-Type" (d_headers_common defaults)
       end;
     timeout := d_timeout defaults; data := payload |}.

(** [axios.get(url)] and [axios.post(url, data)]. *)
Definition get (B : Type) (u : string) : Request B := dispatch GET u None.

Definition post (B : Type) (u : string) (payload : B) : Request B :=
  dispatch POST u (Some payload).

(** The body of a non-2xx reply, read as [{error, detail?}]. A body that
    is not an object (a text, the empty text of an empty reply) has
    neither field: reading one gives [undefined]. *)
Record ErrorBody := {
  error : option string;
  detail : option string
}.

Record ErrorResponse := {
  status : nat;
  statusText : string;
  body : option ErrorBody    (* [None]: [response.data] is [null] or [undefined] *)
}.

(** An [AxiosError]. *)
Record Error := {
  message : string;
  code : option string;
  response : option ErrorResponse;
  request : bool                       (* was a request object attached *)
}.

(** How an awaited call settles; [R] is [response.data] of a 2xx reply. *)
Inductive Outcome (R : Type) :=
| Resolved (r : R)
| Rejected (e : Error).

Arguments Rejected {R} e.

End Axios.

(** What a [catch] clause can receive. *)
Inductive JsError :=
| AxiosErr (e : Axios.Error)
| PlainError (message : string).        (* [new Error(message)] *)

Definition error_message (e : JsError) : string :=
  match e with
  | AxiosErr a => Axios.message a
  | PlainError m => m
  end.

(** The outcome of evaluating an expression: a value, or a throw. *)
Inductive Evaluated (A : Type) : Type :=
| Yields (a : A)
| Throws (e : JsError).

Arguments Yields {A} a.
Arguments Throws {A} e.

(* ------------------------------------------------------------------ *)
(** ** Asynchronous functions *)

Section Proc.

(** [S]: the state the [setX] calls act on; [B]: request payloads;
    [R]: what an awaited call resolves to. *)
Variables (S B R : Type).

Inductive Proc (A : Type) : Type :=
| Ret (a : A)
| Throw (e : JsError)
| Update (u : S -> S) (k : Proc A)
| Await (call : Axios.Request B) (k : Axios.Outcome R -> Proc A).

Arguments Ret {A} a.
Arguments Throw {A} e.

Fixpoint bind {A C} (m : Proc A) (f : A -> Proc C) : Proc C :=
  match m with
  | Ret a => f a
  | Throw e => Throw e
  | Update u k => Update u (bind k f)
  | Await c k => Await c (fun o => bind (k o) f)
  end.

(** [try { m } catch (e) { h e }] *)
Fixpoint try_catch {A} (m : Proc A) (h : JsError -> Proc A) : Proc A :=
  match m with
  | Ret a => Ret a
  | Throw e => h e
  | Update u k => Update u (try_catch k h)
  | Await c k => Await c (fun o => try_catch (k o) h)
  end.

(** [try { m } finally { f }], for an [f] that neither returns nor throws
    a value of its own. *)
Fixpoint try_finally {A} (m : Proc A) (f : Proc unit) : Proc A :=
  match m with
  | Ret a => bind f (fun _ => Ret a)
  | Throw e => bind f (fun _ => Throw e)
  | Update u k => Update u (try_finally k f)
  | Await c k => Await c (fun o => try_finally (k o) f)
  end.

(** [await call]: the resolved data, or the rejection thrown. *)
Definition await (call : Axios.Request B) : Proc R :=
  Await call (fun o =>
    match o with
    | Axios.Resolved r => Ret r
    | Axios.Rejected e => Throw (AxiosErr e)
    end).

(** [setX(v)] *)
Definition set (u : S -> S) : Proc unit := Update u (Ret tt).

(** Where a run stops: finished, an uncaught throw, or parked at an
    [await] with the call to send. *)
Inductive Stop (A : Type) : Type :=
| Finished (a : A)
| Uncaught (e : JsError)
| Parked (call : Axios.Request B) (k : Axios.Outcome R -> Proc A).

(** Run synchronously up to the next [await]. *)
Fixpoint run {A} (m : Proc A) (s : S) : S * Stop A :=
  match m with
  | Ret a => (s, Finished a)
  | Throw e => (s, Uncaught _ e)
  | Update u k => run k (u s)
  | Await c k => (s, Parked c k)
  end.

(** The call of the first [await] a run reaches; it does not depend on
    the state. *)
Fixpoint first_call {A} (m : Proc A) : option (Axios.Request B) :=
  match m with
  | Await c _ => Some c
  | Update _ k => first_call k
  | Ret _ | Throw _ => None
  end.

(** What is left to run once that call has settled with [o]. *)
Fixpoint at_await {A} (m : Proc A) (o : Axios.Outcome R) : Proc A :=
  match m with
  | Await _ k => k o
  | Update _ k => at_await k o
  | Ret _ | Throw _ => m
  end.

(** Every update of [m] satisfies [Pu] and every call [Pc], however the
    calls settle. *)
Fixpoint Safe (Pu : (S -> S) -> Prop) (Pc : Axios.Request B -> Prop)
    {A} (m : Proc A) : Prop :=
  match m with
  | Ret _ | Throw _ => True
  | Update u k => Pu u /\ Safe Pu Pc k
  | Await c k => Pc c /\ forall o, Safe Pu Pc (k o)
  end.

End Proc.

Arguments Ret {S B R A} a.
Arguments Throw {S B R A} e.
Arguments Update {S B R A} u k.
Arguments Await {S B R A} call k.
Arguments set {S B R} u.
Arguments await {S B R} call.
Arguments bind {S B R A C} m f.
Arguments try_catch {S B R A} m h.
Arguments try_finally {S B R A} m f.
Arguments run {S B R A} m s.
Arguments first_call {S B R A} m.
Arguments at_await {S B R A} m o.
Arguments Safe {S B R} Pu Pc {A} m.
Arguments Finished {S B R A} a.
Arguments Uncaught {S B R A} e.
Arguments Parked {S B R A} call k.

Declare Scope proc_scope.
Delimit Scope proc_scope with proc.
Notation "x <- m ;; k" := (bind m (fun x => k))
  (at level 61, m at next level, right associativity) : proc_scope.
Notation "m ;;; k" := (bind m (fun _ => k))
  (at level 61, right associativity) : proc_scope.

(* ------------------------------------------------------------------ *)
(** ** The JSON contract with the backend *)

Module Api.

(** ['completion' | 'documentation' | 'explanation'] *)
Inductive RequestType := Completion | Documentation | Explanation.

(** [interface AICompletionRequest] *)
Record AICompletionRequest := {
  prompt : string;
  model : option string;
  system_prompt : option string;
  temperature : option Q;
  max_tokens : option nat;
  language : option string;
  request_type : option RequestType
}.

(** [interface AICompletionResponse] *)
Record AICompletionResponse := {
  response : string;
  response_model : string;
  timestamp : string;
  provider : option string
}.

(** One entry of the quick-suggestion list. *)
Record Suggestion := {
  completion : string;
  confidence : Q
}.

(** [response.data] of [POST /api/complete]; the field may be missing. *)
Record CompleteResponse := {
  suggestions : option (list Suggestion)
}.

(** The request bodies the application posts. *)
Inductive Payload :=
| CompletePayload (code language : string)      (* [{code, language}] *)
| AIPayload (request : AICompletionRequest).

End Api.

(* ------------------------------------------------------------------ *)
(** ** src/services/aiService.ts *)

Module AIService.
Import Api.

Section Service.

(** The service touches no state of its own; [S] is its caller's. *)
Variable S : Type.

Local Abbreviation Async := (Proc S Payload AICompletionResponse).
Local Open Scope proc_scope.

Definition API_URL : string := "http://localhost:5002/api".

(** The catch clause of [getCompletion]: the value it throws. *)
Definition getCompletion_catch (error : JsError) : JsError :=
match error with
| AxiosErr e =>
    match Axios.response e with
    | Some resp =>
        match Axios.body resp with
        | Some errorData =>
            match Axios.error errorData with
            | Some msg =>
                if Js.truthy msg &&
                   (Js.includes msg "quota" ||
                    Js.includes msg "billing" ||
                    Js.includes msg "API key")
                then PlainError ("AI API Key Error: " ++ msg)
                else if Js.truthy msg && Js.includes msg "proxies"
                then PlainError "AI Configuration Error: Server proxy settings issue. Please contact administrator."
                else if Js.truthy msg
                then PlainError msg
                else error
            | None => error
            end
        | None => error
        end
    | None => error
    end
| PlainError _ => error
end.

Definition getCompletion (request : AICompletionRequest)
: Async AICompletionResponse :=
try_catch
  (await (Axios.post (API_URL ++ "/ai/completion") (AIPayload request)))
  (fun error => Throw (getCompletion_catch error)).

(** The two lines shared by the three entry points:
  [providerInfo = response.provider ? ` (via ${response.provider})` : '']
  and [response.response + (providerInfo ? `\n\n${providerInfo}` : '')]. *)
Definition with_provider (response : AICompletionResponse) : string :=
let providerInfo :=
  if Js.truthy_opt (provider response)
  then " (via " ++ match provider response with Some p => p | None => "" end ++ ")"
  else "" in
Api.response response ++
  (if Js.truthy providerInfo then Js.nl ++ Js.nl ++ providerInfo else "").

Definition completion_systemPrompt (language : string) : string :=
"You are an expert " ++ language ++ " programmer. " ++ Js.nl ++
"    Provide code completion that is concise, efficient, and follows best practices." ++ Js.nl ++
"    Only return code without explanation.".

Definition getCodeCompletion_request (code language : string) : AICompletionRequest :=
{| prompt := code;
   model := None;
   system_prompt := Some (completion_systemPrompt language);
   temperature := Some 0.3%Q;
   max_tokens := None;
   language := Some language;
   request_type := Some Completion |}.

Definition getCodeCompletion (code language : string) : Async string :=
try_catch
  (response <- getCompletion (getCodeCompletion_request code language) ;;
   Ret (with_provider response))
  (fun error => Throw error).

Definition documentation_systemPrompt (language : string) : string :=
"You are an expert at writing documentation. " ++ Js.nl ++
"    Analyze the provided " ++ language ++ " code and generate clear, comprehensive documentation" ++ Js.nl ++
"    that explains what the code does, any parameters, return values, and important details.".

Definition generateDocumentation_request (code language : string) : AICompletionRequest :=
{| prompt := "Generate documentation for the following " ++ language ++ " code:" ++ Js.nl ++ Js.nl ++ code;
   model := None;
   system_prompt := Some (documentation_systemPrompt language);
   temperature := Some 0.5%Q;
   max_tokens := None;
   language := Some language;
   request_type := Some Documentation |}.

Definition generateDocumentation (code language : string) : Async string :=
try_catch
  (response <- getCompletion (generateDocumentation_request code language) ;;
   Ret (with_provider response))
  (fun error => Throw error).

Definition explanation_systemPrompt (language : string) : string :=
"You are a programming teacher who explains code in simple terms." ++ Js.nl ++
"    Analyze the provided " ++ language ++ " code and explain what it does in clear, concise language" ++ Js.nl ++
"    that a junior developer would understand. Focus on the purpose and logic, not line-by-line details.".

Definition explainCode_request (code language : string) : AICompletionRequest :=
{| prompt := "Explain this " ++ language ++ " code in simple terms:" ++ Js.nl ++ Js.nl ++ code;
   model := None;
   system_prompt := Some (explanation_systemPrompt language);
   temperature := Some 0.7%Q;
   max_tokens := None;
   language := Some language;
   request_type := Some Explanation |}.

Definition explainCode (code language : string) : Async string :=
try_catch
  (response <- getCompletion (explainCode_request code language) ;;
   Ret (with_provider response))
  (fun error => Throw error).

End Service.

End AIService.

(* ------------------------------------------------------------------ *)
(** ** src/App.tsx: state and handlers *)

Module App.
Import Api.
Local Open Scope proc_scope.

(** ['complete' | 'document' | 'explain' | 'remove'] *)
Inductive AiAction := complete | document | explain | remove.

(** The ten [useState] cells of [App]. *)
Record State := {
  code : string;
  language : string;
  suggestions : list Suggestion;
  error : option string;
  loading : bool;
  aiResponse : option string;
  aiLoading : bool;
  aiAction : option AiAction;
  isQuotaError : bool;
  isConfigError : bool
}.

Definition initial : State :=
  {| code := "# Start typing your code here...";
     language := "python";
     suggestions := [];
     error := None;
     loading := false;
     aiResponse := None;
     aiLoading := false;
     aiAction := None;
     isQuotaError := false;
     isConfigError := false |}.

Definition setCode v (s : State) : State :=
  {| code := v; language := language s; suggestions := suggestions s;
     error := error s; loading := loading s; aiResponse := aiResponse s;
     aiLoading := aiLoading s; aiAction := aiAction s;
     isQuotaError := isQuotaError s; isConfigError := isConfigError s |}.
Definition setLanguage v (s : State) : State :=
  {| code := code s; language := v; suggestions := suggestions s;
     error := error s; loading := loading s; aiResponse := aiResponse s;
     aiLoading := aiLoading s; aiAction := aiAction s;
     isQuotaError := isQuotaError s; isConfigError := isConfigError s |}.
Definition setSuggestions v (s : State) : State :=
  {| code := code s; language := language s; suggestions := v;
     error := error s; loading := loading s; aiResponse := aiResponse s;
     aiLoading := aiLoading s; aiAction := aiAction s;
     isQuotaError := isQuotaError s; isConfigError := isConfigError s |}.
Definition setError v (s : State) : State :=
  {| code := code s; language := language s; suggestions := suggestions s;
     error := v; loading := loading s; aiResponse := aiResponse s;
     aiLoading := aiLoading s; aiAction := aiAction s;
     isQuotaError := isQuotaError s; isConfigError := isConfigError s |}.
Definition setLoading v (s : State) : State :=
  {| code := code s; language := language s; suggestions := suggestions s;
     error := error s; loading := v; aiResponse := aiResponse s;
     aiLoading := aiLoading s; aiAction := aiAction s;
     isQuotaError := isQuotaError s; isConfigError := isConfigError s |}.
Definition setAiResponse v (s : State) : State :=
  {| code := code s; language := language s; suggestions := suggestions s;
     error := error s; loading := loading s; aiResponse := v;
     aiLoading := aiLoading s; aiAction := aiAction s;
     isQuotaError := isQuotaError s; isConfigError := isConfigError s |}.
Definition setAiLoading v (s : State) : State :=
  {| code := code s; language := language s; suggestions := suggestions s;
     error := error s; loading := loading s; aiResponse := aiResponse s;
     aiLoading := v; aiAction := aiAction s;
     isQuotaError := isQuotaError s; isConfigError := isConfigError s |}.
Definition setAiAction v (s : State) : State :=
  {| code := code s; language := language s; suggestions := suggestions s;
     error := error s; loading := loading s; aiResponse := aiResponse s;
     aiLoading := aiLoading s; aiAction := v;
     isQuotaError := isQuotaError s; isConfigError := isConfigError s |}.
Definition setIsQuotaError v (s : State) : State :=
  {| code := code s; language := language s; suggestions := suggestions s;
     error := error s; loading := loading s; aiResponse := aiResponse s;
     aiLoading := aiLoading s; aiAction := aiAction s;
     isQuotaError := v; isConfigError := isConfigError s |}.
Definition setIsConfigError v (s : State) : State :=
  {| code := code s; language := language s; suggestions := suggestions s;
     error := error s; loading := loading s; aiResponse := aiResponse s;
     aiLoading := aiLoading s; aiAction := aiAction s;
     isQuotaError := isQuotaError s; isConfigError := v |}.

(** [process.env.REACT_APP_BACKEND_URL || 'http://127.0.0.1:5002'] *)
Definition BACKEND_URL (env : option string) : string :=
  Js.or_else (match env with Some u => u | None => "" end) "http://127.0.0.1:5002".

Abbreviation Fetch := (Proc State Payload CompleteResponse).
Abbreviation Action := (Proc State Payload AICompletionResponse).
Abbreviation Probe := (Proc State Payload string).

(** [verifyBackendConnection]: the reply or the failure is only logged. *)
Definition verifyBackendConnection (env : option string) : Probe unit :=
  try_catch
    (response <- await (Axios.get Payload (BACKEND_URL env ++ "/")) ;; Ret tt)
    (fun _ => Ret tt).

(** The [TypeError] of reading a property of [null]; its text is the
    engine's. *)
Definition null_read : JsError :=
  PlainError "Cannot read properties of null (reading 'error')".

(** The message computed in the catch clause of [getSuggestions]. The
    branch for a server reply reads [error.response.data.error] with no
    guard: when [data] is [null] that read throws. *)
Definition getSuggestions_errorMessage (error : JsError) : Evaluated string :=
  match error with
  | AxiosErr e =>
      if match Axios.code e with
         | Some c => String.eqb c "ECONNREFUSED"
         | None => false
         end
      then Yields "Cannot connect to the backend server. Please make sure it is running."
      else
        match Axios.response e with
        | Some resp =>
            match Axios.body resp with
            | Some b =>
                Yields
                  ("Server error: " ++
                   Js.or_else
                     (match Axios.error b with Some m => m | None => "" end)
                     (Axios.statusText resp))
            | None => Throws null_read
            end
        | None =>
            if Axios.request e
            then Yields "No response from server. Please check your connection."
            else Yields "Failed to fetch code suggestions. Please try again."
        end
  | PlainError _ => Yields "Failed to fetch code suggestions. Please try again."
  end.

(** [getSuggestions], closed over the [language] and the backend URL of
    the render that created it. *)
Definition getSuggestions (env : option string) (language : string)
    (codeSnippet : string) : Fetch unit :=
  set (setLoading true) ;;;
  set (setError None) ;;;
  try_finally
    (try_catch
       (response <- await (Axios.post (BACKEND_URL env ++ "/api/complete")
                             (CompletePayload codeSnippet language)) ;;
        match Api.suggestions response with
        | None => Throw (PlainError "Invalid response format from server")
        | Some l => set (setSuggestions l)
        end)
       (fun error =>
          match getSuggestions_errorMessage error with
          | Yields errorMessage =>
              set (setError (Some errorMessage)) ;;;
              set (setSuggestions [])
          | Throws thrown => Throw thrown
          end))
    (set (setLoading false)).

(** The catch clause shared, up to the generic prefix, by the four AI
    handlers; [handleAIError] is its instance for [handleCleanCode]. *)
Definition on_ai_error (prefix : string) (error : JsError) : Action unit :=
  let message := error_message error in
  if Js.truthy message && Js.includes message "AI API Key Error" then
    set (setError (Some "AI API quota exceeded or billing issue. The API key needs to be updated or billing issues need to be resolved.")) ;;;
    set (setIsQuotaError true)
  else if Js.truthy message && Js.includes message "Configuration Error" then
    set (setError (Some "AI configuration error on the server. The administrator needs to fix proxy settings.")) ;;;
    set (setIsConfigError true)
  else
    set (setError (Some (prefix ++ Js.or_else message "Please try again later."))).

Definition handleAIError : JsError -> Action unit :=
  on_ai_error "Failed to process with AI: ".

(** The six [setX] calls every AI handler starts with. *)
Definition begin_action (a : AiAction) : Action unit :=
  set (setAiLoading true) ;;;
  set (setAiAction (Some a)) ;;;
  set (setAiResponse None) ;;;
  set (setError None) ;;;
  set (setIsQuotaError false) ;;;
  set (setIsConfigError false).

(** The handlers read [code] and [language] of the render [st] they were
    created in. *)
Definition handleCompleteCode (st : State) : Action unit :=
  begin_action complete ;;;
  try_finally
    (try_catch
       (completion <- AIService.getCodeCompletion State (code st) (language st) ;;
        set (setAiResponse (Some completion)))
       (on_ai_error "Failed to get code completion from AI: "))
    (set (setAiLoading false)).

Definition handleDocumentCode (st : State) : Action unit :=
  begin_action document ;;;
  try_finally
    (try_catch
       (documentation <- AIService.generateDocumentation State (code st) (language st) ;;
        set (setAiResponse (Some documentation)))
       (on_ai_error "Failed to generate documentation with AI: "))
    (set (setAiLoading false)).

Definition handleExplainCode (st : State) : Action unit :=
  begin_action explain ;;;
  try_finally
    (try_catch
       (explanation <- AIService.explainCode State (code st) (language st) ;;
        set (setAiResponse (Some explanation)))
       (on_ai_error "Failed to explain code with AI: "))
    (set (setAiLoading false)).

(** A Monaco range, flattened to character offsets into the model. *)
Record Range := {
  startOffset : nat;
  endOffset : nat
}.

(** [editor.getValueInRange(selection)] *)
Definition getValueInRange (model : string) (r : Range) : string :=
  substring (startOffset r) (endOffset r - startOffset r) model.

(** [editor.getFullModelRange()] *)
Definition getFullModelRange (model : string) : Range :=
  {| startOffset := 0; endOffset := String.length model |}.

(** The text of the model after
    [editor.pushEditOperations([], [{range, text}], () => null)]. What the
    call sets off on the page besides is [edit], below. *)
Definition pushEditOperations (model : string) (r : Range) (text : string) : string :=
  Js.splice model (startOffset r) (endOffset r) text.

(** Monaco stores line ends in the model's own form, the line feed, and
    rewrites a carriage return it is handed; a text without one is stored
    as it is given. The statements about the model after an edit are made
    for such texts. *)
Definition stored_as_given (text : string) : bool :=
  negb (Js.includes text Js.cr).

(** [editor] is [window.monaco?.editor.getModels()[0]] and [selection] is
    [window.monaco?.editor.getEditors()[0]?.getSelection()], both read when
    the handler runs. *)
Definition handleCleanCode (st : State) (editor : option string)
    (selection : option Range) : Action unit :=
  begin_action remove ;;;
  try_finally
    (try_catch
       (match editor with
        | Some model =>
            let selectedText :=
              match selection with
              | Some sel => getValueInRange model sel
              | None => code st
              end in
            let prompt :=
              "Please help me remove unnecessary code while keeping the core functionality:"
                ++ Js.nl ++ Js.nl ++ selectedText in
            cleanedCode <- AIService.getCodeCompletion State prompt (language st) ;;
            set (setAiResponse (Some cleanedCode))
        | None => Ret tt
        end)
       handleAIError)
    (set (setAiLoading false)).

(** *** The event loop around the component *)

(** A pending [setTimeout]: the closure to call and when. *)
Record Timer := {
  timer_id : nat;
  due : nat;
  callback : Fetch unit
}.

(** A continuation parked at an [await]. *)
Inductive Waiting :=
| WaitAction (k : Axios.Outcome AICompletionResponse -> Action unit)
| WaitFetch (k : Axios.Outcome CompleteResponse -> Fetch unit)
| WaitProbe (k : Axios.Outcome string -> Probe unit).

(** How the backend answers one call. *)
Inductive Reply :=
| ReplyAction (o : Axios.Outcome AICompletionResponse)
| ReplyFetch (o : Axios.Outcome CompleteResponse)
| ReplyProbe (o : Axios.Outcome string).

(** The component and what surrounds it: the Monaco model and selection
    ([None] while [window.monaco] or its first model or editor is
    missing), the environment, the clock, the timer queue, the log of
    requests sent, and the continuations waiting for a reply, keyed by
    the position of their request in [sent]. *)
Record World := {
  app : State;
  editor : option string;
  selection : option Range;
  env : option string;
  now : nat;
  timers : list Timer;
  next_timer : nat;
  sent : list (Axios.Request Payload);
  waiting : list (nat * Waiting)
}.

Definition with_app (s : State) (w : World) : World :=
  {| app := s; editor := editor w; selection := selection w; env := env w;
     now := now w; timers := timers w; next_timer := next_timer w;
     sent := sent w; waiting := waiting w |}.

Definition with_editor (m : option string) (sel : option Range) (w : World) : World :=
  {| app := app w; editor := m; selection := sel; env := env w;
     now := now w; timers := timers w; next_timer := next_timer w;
     sent := sent w; waiting := waiting w |}.

(** Run [p] up to its first [await]; send the call and park the rest. *)
Definition spawn {R} (wrap : (Axios.Outcome R -> Proc State Payload R unit) -> Waiting)
    (p : Proc State Payload R unit) (w : World) : World :=
  match run p (app w) with
  | (s', Parked call k) =>
      {| app := s'; editor := editor w; selection := selection w; env := env w;
         now := now w; timers := timers w; next_timer := next_timer w;
         sent := sent w ++ [call];
         waiting := waiting w ++ [(List.length (sent w), wrap k)] |}
  | (s', _) => with_app s' w
  end.

(** [setTimeout(cb, delay)]; the id returned is [next_timer w]. *)
Definition setTimeout (cb : Fetch unit) (delay : nat) (w : World) : World :=
  {| app := app w; editor := editor w; selection := selection w; env := env w;
     now := now w;
     timers := timers w ++ [{| timer_id := next_timer w; due := now w + delay;
                               callback := cb |}];
     next_timer := Datatypes.S (next_timer w);
     sent := sent w; waiting := waiting w |}.

Definition clearTimeout (id : nat) (w : World) : World :=
  {| app := app w; editor := editor w; selection := selection w; env := env w;
     now := now w;
     timers := filter (fun t => negb (Nat.eqb (timer_id t) id)) (timers w);
     next_timer := next_timer w;
     sent := sent w; waiting := waiting w |}.

(** [handleEditorChange]: the world after the call, and the value it
    returns, [undefined] or the closure [() => clearTimeout(timeoutId)]. *)
Definition handleEditorChange (value : option string) (w : World)
  : World * option (World -> World) :=
  match value with
  | Some v =>
      if Js.truthy v then
        let w1 := with_app (setCode v (app w)) w in
        let timeoutId := next_timer w1 in
        let w2 := setTimeout (getSuggestions (env w) (language (app w)) v) 500 w1 in
        (w2, Some (clearTimeout timeoutId))
      else (w, None)
  | None => (w, None)
  end.

(** [<Editor onChange={handleEditorChange}>]: the editor calls the
    handler and drops what it returns. *)
Definition onChange (value : option string) (w : World) : World :=
  fst (handleEditorChange value w).

(** The page's own edit of the model, as it happens in the browser:
    [pushEditOperations] replaces the text of the range; Monaco leaves the
    selection where it sees fit ([after]: its choice, not the page's); and
    it reports the new content to the listener that
    [<Editor onChange={handleEditorChange}>] registers, before the caller
    goes on. *)
Definition edit (model : string) (r : Range) (text : string)
    (after : option Range) (w : World) : World :=
  let model' := pushEditOperations model r text in
  onChange (Some model') (with_editor (Some model') after w).

(** The three handlers that edit the model. Each reads [aiResponse] and
    [code] of the render it was created in; [after] is where Monaco leaves
    the selection. *)
Definition handleInsertAtCursor (after : option Range) (w : World) : World :=
  match aiResponse (app w) with
  | Some text =>
      if Js.truthy text then
        match editor w with
        | Some model =>
            let w1 :=
              match selection w with
              | Some sel => edit model sel text after w
              | None => edit model (getFullModelRange model) text after w
              end in
            with_app (setCode text (app w1)) w1
        | None => w
        end
      else w
  | None => w
  end.

Definition handleApplyAiResponse (after : option Range) (w : World) : World :=
  match aiResponse (app w) with
  | Some text =>
      if Js.truthy text then
        let w1 := with_app (setCode text (app w)) w in
        match editor w with
        | Some model => edit model (getFullModelRange model) text after w1
        | None => w1
        end
      else w
  | None => w
  end.

Definition handleSuggestionClick (completion : string) (after : option Range)
    (w : World) : World :=
  match editor w with
  | Some model =>
      edit model (getFullModelRange model) (code (app w) ++ completion) after w
  | None => w
  end.

(** [<Editor value={code}>]: when a render brings a [value] other than
    that of the render before ([previous]) and other than the content of
    the model, the component writes it into the model, with its change
    listener muted. *)
Definition render (previous : string) (w : World) : World :=
  if String.eqb (code (app w)) previous then w
  else
    match editor w with
    | Some model =>
        if String.eqb model (code (app w)) then w
        else with_editor (Some (code (app w))) (selection w) w
    | None => w
    end.

(** [disabled={aiLoading || !code || isQuotaError || isConfigError}], the
    same on the four action buttons. *)
Definition disabled (s : State) : bool :=
  aiLoading s || negb (Js.truthy (code s)) || isQuotaError s || isConfigError s.

(** The handler behind each action button. *)
Definition handler (a : AiAction) (w : World) : Action unit :=
  match a with
  | complete => handleCompleteCode (app w)
  | document => handleDocumentCode (app w)
  | explain => handleExplainCode (app w)
  | remove => handleCleanCode (app w) (editor w) (selection w)
  end.

(** A click reaches [onClick] only on an enabled button. *)
Definition click (a : AiAction) (w : World) : World :=
  if disabled (app w) then w else spawn WaitAction (handler a w) w.

(** The response panel is rendered when [!aiLoading && aiResponse]. *)
Definition response_shown (s : State) : bool :=
  negb (aiLoading s) && Js.truthy_opt (aiResponse s).

(** "Append to Editor": [aiAction === 'complete' || aiAction === 'document']. *)
Definition apply_shown (s : State) : bool :=
  response_shown s &&
  match aiAction s with Some complete | Some document => true | _ => false end.

(** "Insert at Cursor" for the same two actions, "Apply Cleaned Code" for
    ['remove']; both call [handleInsertAtCursor]. *)
Definition insert_shown (s : State) : bool :=
  response_shown s &&
  match aiAction s with
  | Some complete | Some document | Some remove => true
  | _ => false
  end.

(** [<Snackbar open={!!error && !isQuotaError && !isConfigError}>] *)
Definition snackbar_open (s : State) : bool :=
  Js.truthy_opt (error s) && negb (isQuotaError s) && negb (isConfigError s).

(** Timers whose time has come fire in the order they were set (all are
    set with the same delay, so this is the order of their due times). *)
Fixpoint fire (ts : list Timer) (w : World) : World :=
  match ts with
  | [] => w
  | t :: rest => fire rest (spawn WaitFetch (callback t) w)
  end.

Definition elapse (ms : nat) (w : World) : World :=
  let t := now w + ms in
  let ready := filter (fun x => Nat.leb (due x) t) (timers w) in
  let later := filter (fun x => negb (Nat.leb (due x) t)) (timers w) in
  fire ready
    {| app := app w; editor := editor w; selection := selection w; env := env w;
       now := t; timers := later; next_timer := next_timer w;
       sent := sent w; waiting := waiting w |}.

Fixpoint take_waiting (id : nat) (l : list (nat * Waiting))
  : option (Waiting * list (nat * Waiting)) :=
  match l with
  | [] => None
  | (i, k) :: rest =>
      if Nat.eqb i id then Some (k, rest)
      else match take_waiting id rest with
           | Some (k', rest') => Some (k', (i, k) :: rest')
           | None => None
           end
  end.

(** The reply to request [id] arrives: its continuation resumes. *)
Definition settle (id : nat) (r : Reply) (w : World) : World :=
  match take_waiting id (waiting w) with
  | Some (k, rest) =>
      let w' :=
        {| app := app w; editor := editor w; selection := selection w; env := env w;
           now := now w; timers := timers w; next_timer := next_timer w;
           sent := sent w; waiting := rest |} in
      match k, r with
      | WaitAction k, ReplyAction o => spawn WaitAction (k o) w'
      | WaitFetch k, ReplyFetch o => spawn WaitFetch (k o) w'
      | WaitProbe k, ReplyProbe o => spawn WaitProbe (k o) w'
      | _, _ => w
      end
  | None => w
  end.

(** What can happen to the page. [EditorChange] is the call of the change
    listener and [Monaco] any change of the editor made from outside the
    page's code (loading, typing, selecting): a user's edit is a [Monaco]
    event followed by the [EditorChange] that reports it. The three clicks
    that edit the model say where Monaco leaves the selection. *)
Inductive Event :=
| EditorChange (value : option string)
| Elapse (ms : nat)
| Click (a : AiAction)
| Settle (id : nat) (r : Reply)
| ClickInsertAtCursor (after : option Range)
| ClickApply (after : option Range)
| ClickSuggestion (index : nat) (after : option Range)
| SelectLanguage (l : string)
| CloseSnackbar
| Monaco (model : option string) (sel : option Range).

(** The handler an event runs. *)
Definition react (e : Event) (w : World) : World :=
  match e with
  | EditorChange value => onChange value w
  | Elapse ms => elapse ms w
  | Click a => click a w
  | Settle id r => settle id r w
  | ClickInsertAtCursor after =>
      if insert_shown (app w) then handleInsertAtCursor after w else w
  | ClickApply after =>
      if apply_shown (app w) then handleApplyAiResponse after w else w
  | ClickSuggestion index after =>
      match nth_error (suggestions (app w)) index with
      | Some s => handleSuggestionClick (completion s) after w
      | None => w
      end
  | SelectLanguage l => with_app (setLanguage l (app w)) w
  | CloseSnackbar =>
      if snackbar_open (app w) then with_app (setError None (app w)) w else w
  | Monaco model sel => with_editor model sel w
  end.

(** An event: its handler, then the render that follows. *)
Definition step (e : Event) (w : World) : World :=
  render (code (app w)) (react e w).

Fixpoint steps (es : list Event) (w : World) : World :=
  match es with
  | [] => w
  | e :: rest => steps rest (step e w)
  end.

(** The page load: initial state, then the mount effect. *)
Definition start (env : option string) : World :=
  spawn WaitProbe (verifyBackendConnection env)
    {| app := initial; editor := None; selection := None; env := env;
       now := 0; timers := []; next_timer := 0; sent := []; waiting := [] |}.

(** Every world the page can be in. *)
Inductive Reachable : World -> Prop :=
| reach_start env : Reachable (start env)
| reach_step e w : Reachable w -> Reachable (step e w).

(** *** Observations used by the properties below *)

(** A request to the AI endpoint. *)
Definition is_ai_call (r : Axios.Request Payload) : bool :=
  match Axios.data r with
  | Some (AIPayload _) => true
  | _ => false
  end.

Definition ai_calls (w : World) : list (Axios.Request Payload) :=
  filter is_ai_call (sent w).

(** A request as the configured client sends it: the 10 s timeout, the
    JSON [Accept] header, and the JSON [Content-Type] header exactly when
    the request has a body. *)
Definition configured (r : Axios.Request Payload) : Prop :=
  Axios.timeout r = 10000%N /\
  Axios.get_header "Accept" (Axios.headers r) = Some "application/json" /\
  Axios.get_header "Content-Type" (Axios.headers r) =
    match Axios.data r with
    | Some _ => Some "application/json"
    | None => None
    end.

(** One of the two blocking flags is up. *)
Definition blocked (s : State) : bool := isQuotaError s || isConfigError s.

(** An update that lowers neither blocking flag. *)
Definition keeps_flags (u : State -> State) : Prop :=
  forall s,
    (isQuotaError s = true -> isQuotaError (u s) = true) /\
    (isConfigError s = true -> isConfigError (u s) = true).

(** What an action handler does with a rejected call: [getCompletion]
    re-throws, the entry point re-throws, the handler's catch clause
    (with its generic [prefix]) sets the state. *)
Definition classify (prefix : string) (e : Axios.Error) (s : State) : State :=
  fst (run (on_ai_error prefix (AIService.getCompletion_catch (AxiosErr e))) s).

(** The generic prefix of each handler's catch clause. *)
Definition prefix_of (a : AiAction) : string :=
  match a with
  | complete => "Failed to get code completion from AI: "
  | document => "Failed to generate documentation with AI: "
  | explain => "Failed to explain code with AI: "
  | remove => "Failed to process with AI: "
  end.

(** The error body [{error: msg}] of a non-2xx reply. *)
Definition server_error (status : nat) (statusText msg : string) : Axios.Error :=
  {| Axios.message := "Request failed";
     Axios.code := Some "ERR_BAD_RESPONSE";
     Axios.response :=
       Some {| Axios.status := status; Axios.statusText := statusText;
               Axios.body := Some {| Axios.error := Some msg; Axios.detail := None |} |};
     Axios.request := true |}.

(** A rejection with no reply at all (timeout, network down). *)
Definition no_reply : Axios.Error :=
  {| Axios.message := "timeout of 10000ms exceeded";
     Axios.code := Some "ECONNABORTED";
     Axios.response := None;
     Axios.request := true |}.

(** The texts the handlers show. *)
Definition quota_text : string :=
  "AI API quota exceeded or billing issue. The API key needs to be updated or billing issues need to be resolved.".

Definition config_text : string :=
  "AI configuration error on the server. The administrator needs to fix proxy settings.".

Definition generic_text : string :=
  "Failed to fetch code suggestions. Please try again.".

(** A burst of edits: each value typed, then the pause before the next. *)
Fixpoint burst (edits : list (string * nat)) : list Event :=
  match edits with
  | [] => []
  | (v, pause) :: rest => EditorChange (Some v) :: Elapse pause :: burst rest
  end.

(** Every pending timer is at most 500 ms ahead and will make a call. *)
Definition pending_ok (w : World) : Prop :=
  Forall (fun t => due t <= now w + 500 /\ first_call (callback t) <> None) (timers w).

(** Sent requests plus pending timers: an edit adds one, time adds none. *)
Definition owed (w : World) : nat := List.length (sent w) + List.length (timers w).

(** The page after a quota failure of Complete. *)
Definition after_quota_failure : World :=
  steps [Click complete;
         Settle 1 (ReplyAction (Axios.Rejected
           (server_error 429 "TOO MANY REQUESTS"
              "You exceeded your current quota, check billing")))]
    (start None).

(** A parked continuation makes no further call and lowers no flag. *)
Definition waiting_ok (k : Waiting) : Prop :=
  match k with
  | WaitAction k => forall o, Safe keeps_flags (fun _ => False) (k o)
  | WaitFetch k => forall o, Safe keeps_flags (fun _ => False) (k o)
  | WaitProbe k => forall o, Safe keeps_flags (fun _ => False) (k o)
  end.

(** A timer callback lowers no flag and makes one call at most, to the
    suggestion endpoint and with the configured client. *)
Definition timer_ok (t : Timer) : Prop :=
  Safe keeps_flags (fun c => configured c /\ is_ai_call c = false) (callback t) /\
  forall o, Safe keeps_flags (fun _ => False) (at_await (callback t) o).

(** The invariant of the event loop. *)
Record Inv (w : World) : Prop := {
  inv_timers : Forall timer_ok (timers w);
  inv_waiting : Forall (fun p => waiting_ok (snd p)) (waiting w);
  inv_keys : Forall (fun p => fst p < List.length (sent w)) (waiting w);
  inv_sent : Forall configured (sent w)
}.

(** What the synchronous handlers and the render do to the world, step by
    step: move the editor, set [code] to a non-empty text, call the
    change listener. *)
Inductive Sync (w : World) : World -> Prop :=
| sync_refl : Sync w w
| sync_editor m sel w' : Sync w w' -> Sync w (with_editor m sel w')
| sync_code v w' :
    Js.truthy v = true -> Sync w w' -> Sync w (with_app (setCode v (app w')) w')
| sync_change value w' : Sync w w' -> Sync w (onChange value w').

(** *** Where timers, parked continuations and requests come from *)

(** The setters the suggestion fetcher calls. *)
Inductive fetch_update : (State -> State) -> Prop :=
| fu_loading v : fetch_update (setLoading v)
| fu_error v : fetch_update (setError v)
| fu_suggestions v : fetch_update (setSuggestions v).

(** The setters the AI handlers call, before and after their call. *)
Inductive action_update : (State -> State) -> Prop :=
| au_aiLoading v : action_update (setAiLoading v)
| au_aiAction v : action_update (setAiAction v)
| au_aiResponse v : action_update (setAiResponse v)
| au_error v : action_update (setError v)
| au_quota v : action_update (setIsQuotaError v)
| au_config v : action_update (setIsConfigError v).

(** A timer set by [handleEditorChange]. *)
Definition genuine_timer (env : option string) (t : Timer) : Prop :=
  exists lang v, callback t = getSuggestions env lang v.

(** A continuation parked by one of the three asynchronous functions of
    the page, at its one [await]. *)
Definition genuine (env : option string) (k : Waiting) : Prop :=
  match k with
  | WaitAction k =>
      exists a w0,
        first_call (handler a w0) <> None /\ forall o, k o = at_await (handler a w0) o
  | WaitFetch k => exists lang v, forall o, k o = at_await (getSuggestions env lang v) o
  | WaitProbe k => forall o, k o = at_await (verifyBackendConnection env) o
  end.

(** The three requests the page makes. *)
Definition known_call (env : option string) (c : Axios.Request Payload) : Prop :=
  c = Axios.get Payload (BACKEND_URL env ++ "/") \/
  (exists lang v,
     c = Axios.post (BACKEND_URL env ++ "/api/complete") (CompletePayload v lang)) \/
  (exists req,
     c = Axios.post (AIService.API_URL ++ "/ai/completion") (AIPayload req)).

Record Provenance (w : World) : Prop := {
  prov_timers : Forall (genuine_timer (env w)) (timers w);
  prov_waiting : Forall (fun p => genuine (env w) (snd p)) (waiting w);
  prov_sent : Forall (known_call (env w)) (sent w)
}.

(** AI requests waiting for their reply. *)
Fixpoint count_actions (l : list (nat * Waiting)) : nat :=
  match l with
  | [] => 0
  | (_, WaitAction _) :: rest => Datatypes.S (count_actions rest)
  | _ :: rest => count_actions rest
  end.

Definition in_flight (w : World) : nat := count_actions (waiting w).

(** The world once a parked continuation has run to its end: the new
    state, and the continuation gone from [waiting]. *)
Definition resumed (s : State) (rest : list (nat * Waiting)) (w : World) : World :=
  {| app := s; editor := editor w; selection := selection w; env := env w;
     now := now w; timers := timers w; next_timer := next_timer w;
     sent := sent w; waiting := rest |}.

(** How a reply can be taken up: by an AI handler, by the suggestion
    fetcher, or by the mount probe. *)
Inductive Resumes (w : World) (rest : list (nat * Waiting)) : Reply -> World -> Prop :=
| resumes_action a w0 o :
    first_call (handler a w0) <> None ->
    count_actions (waiting w) = Datatypes.S (count_actions rest) ->
    Resumes w rest (ReplyAction o)
      (resumed (fst (run (at_await (handler a w0) o) (app w))) rest w)
| resumes_fetch lang v o :
    count_actions (waiting w) = count_actions rest ->
    Resumes w rest (ReplyFetch o)
      (resumed (fst (run (at_await (getSuggestions (env w) lang v) o) (app w))) rest w)
| resumes_probe o :
    count_actions (waiting w) = count_actions rest ->
    Resumes w rest (ReplyProbe o)
      (resumed (fst (run (at_await (verifyBackendConnection (env w)) o) (app w))) rest w).

(** Two suggestion requests in flight; the newer is answered first, the
    older one last. *)
Definition answered_out_of_order : World :=
  steps [EditorChange (Some "a"); EditorChange (Some "ab"); Elapse 500;
         Settle 2 (ReplyFetch (Axios.Resolved
           {| Api.suggestions := Some [{| completion := "for ab"; confidence := 0.9%Q |}] |}))]
    (start None).

(** The page showing a completion. *)
(** A page that has sent one request of each sort: the probe at load, a
    suggestion fetch for the typed text, and a completion, answered. *)
Definition one_of_each : World :=
  steps [EditorChange (Some "x"); Elapse 500; Click complete;
         Settle 2 (ReplyAction (Axios.Resolved
           {| response := "X"; response_model := "m"; timestamp := "t";
              provider := None |}))]
    (start None).


End App.

(* ------------------------------------------------------------------ *)
(** * Properties *)

(** ** Substring tests *)

Lemma prefix_nil (s : string) : String.prefix "" s = true.
Proof. destruct s; reflexivity. Qed.

Lemma prefix_app (n t : string) : String.prefix n (n ++ t) = true.
Proof.
  induction n as [|a n IH]; simpl.
  - apply prefix_nil.
  - destruct (ascii_dec a a) as [_|ne]; [exact IH | now elim ne].
Qed.

Lemma prefix_app_l (n s t : string) :
  String.prefix n s = true -> String.prefix n (s ++ t) = true.
Proof.
  revert n; induction s as [|b s IH]; intros n H.
  - destruct n; [apply prefix_nil | discriminate H].
  - destruct n as [|a n]; [reflexivity|].
    simpl in *. destruct (ascii_dec a b); [now apply IH | discriminate H].
Qed.

Lemma string_length_app (s t : string) :
  String.length (s ++ t) = String.length s + String.length t.
Proof. induction s as [|a s IH]; [reflexivity | simpl; now rewrite IH]. Qed.

Lemma includes_unfold (s n : string) :
  Js.includes s n =
  String.prefix n s ||
  match s with EmptyString => false | String _ r => Js.includes r n end.
Proof. destruct s; reflexivity. Qed.

Lemma includes_prefix (n t : string) : Js.includes (n ++ t) n = true.
Proof. rewrite includes_unfold, prefix_app. reflexivity. Qed.

Lemma includes_app_l (s t n : string) :
  Js.includes s n = true -> Js.includes (s ++ t) n = true.
Proof.
  induction s as [|b s IH]; intros H.
  - rewrite includes_unfold in H. rewrite orb_false_r in H.
    rewrite includes_unfold. destruct n; [|discriminate H].
    now rewrite prefix_nil.
  - rewrite includes_unfold in H. apply orb_true_iff in H.
    change (String b s ++ t) with (String b (s ++ t)).
    rewrite includes_unfold. apply orb_true_iff.
    destruct H as [H|H].
    + left. now apply (prefix_app_l _ (String b s) t).
    + right. now apply IH.
Qed.

Lemma includes_app_r (s t n : string) :
  Js.includes t n = true -> Js.includes (s ++ t) n = true.
Proof.
  intros H. induction s as [|b s IH]; [exact H|].
  change (String b s ++ t) with (String b (s ++ t)).
  rewrite includes_unfold, IH. apply orb_true_r.
Qed.

(** A string that contains a non-empty needle is itself non-empty. *)
Lemma includes_truthy (s n : string) :
  Js.includes s n = true -> Js.truthy n = true -> Js.truthy s = true.
Proof.
  destruct s; [|reflexivity]. destruct n; [discriminate 2|discriminate 1].
Qed.

(** ** Running asynchronous functions *)

Section ProcFacts.

Variables (S B R : Type).
Implicit Types (s : S) (o : Axios.Outcome R).

(** Where a run parks is where [first_call] and [at_await] say. *)
Lemma run_parked A (m : Proc S B R A) s s' c k :
  run m s = (s', Parked c k) ->
  first_call m = Some c /\ forall o, k o = at_await m o.
Proof.
  revert s; induction m as [a|e|u m IH|c0 k0 _]; intros s H; simpl in *.
  - discriminate.
  - discriminate.
  - now apply IH with (s := u s).
  - inversion H; subst. split; reflexivity.
Qed.

Lemma run_not_parked A (m : Proc S B R A) s :
  first_call m = None -> forall c k, snd (run m s) <> Parked c k.
Proof.
  revert s; induction m as [a|e|u m IH|c0 k0 _]; intros s H c k; simpl in *;
    try discriminate.
  now apply IH.
Qed.

Lemma Safe_bind Pu Pc A C (m : Proc S B R A) (f : A -> Proc S B R C) :
  Safe Pu Pc m -> (forall a, Safe Pu Pc (f a)) -> Safe Pu Pc (bind m f).
Proof.
  intros Hm Hf. induction m as [a|e|u m IH|c k IH]; simpl in *.
  - apply Hf.
  - exact I.
  - split; [apply Hm | apply IH, Hm].
  - split; [apply Hm | intro o; apply IH, Hm].
Qed.

Lemma Safe_try_catch Pu Pc A (m : Proc S B R A) h :
  Safe Pu Pc m -> (forall e, Safe Pu Pc (h e)) -> Safe Pu Pc (try_catch m h).
Proof.
  intros Hm Hh. induction m as [a|e|u m IH|c k IH]; simpl in *.
  - exact I.
  - apply Hh.
  - split; [apply Hm | apply IH, Hm].
  - split; [apply Hm | intro o; apply IH, Hm].
Qed.

Lemma Safe_try_finally Pu Pc A (m : Proc S B R A) f :
  Safe Pu Pc m -> Safe Pu Pc f -> Safe Pu Pc (try_finally m f).
Proof.
  intros Hm Hf. induction m as [a|e|u m IH|c k IH]; simpl in *.
  - apply Safe_bind; [exact Hf | intros; exact I].
  - apply Safe_bind; [exact Hf | intros; exact I].
  - split; [apply Hm | apply IH, Hm].
  - split; [apply Hm | intro o; apply IH, Hm].
Qed.

Lemma Safe_weaken (Pu Pu' : (S -> S) -> Prop) (Pc Pc' : Axios.Request B -> Prop)
    A (m : Proc S B R A) :
  (forall u, Pu u -> Pu' u) -> (forall c, Pc c -> Pc' c) ->
  Safe Pu Pc m -> Safe Pu' Pc' m.
Proof.
  intros Hu Hc. induction m as [a|e|u m IH|c k IH]; simpl; auto.
  - intros [H1 H2]. split; auto.
  - intros [H1 H2]. split; auto.
Qed.

(** A safe term, run: the state moves by safe updates only, and what it
    parks at is a permitted call with a safe continuation. *)
Lemma Safe_run Pu Pc (Q : S -> Prop) A (m : Proc S B R A) s :
  (forall u x, Pu u -> Q x -> Q (u x)) ->
  Safe Pu Pc m -> Q s ->
  Q (fst (run m s)) /\
  match snd (run m s) with
  | Parked c k => Pc c /\ forall o, Safe Pu Pc (k o)
  | _ => True
  end.
Proof.
  intros HQ. revert s; induction m as [a|e|u m IH|c k _]; intros s Hm Hs; simpl in *.
  - auto.
  - auto.
  - destruct Hm as [Hu Hm]. apply IH; [exact Hm | now apply HQ].
  - auto.
Qed.

End ProcFacts.

(** ** The AI action service *)

Section ServiceFacts.

Import Api.
Variable S : Type.

(** What [getCompletion] throws for a reply whose body has an [error]. *)
Lemma getCompletion_catch_body (e : Axios.Error) resp b msg :
  Axios.response e = Some resp ->
  Axios.body resp = Some b ->
  Axios.error b = Some msg ->
  AIService.getCompletion_catch (AxiosErr e) =
    if Js.truthy msg &&
       (Js.includes msg "quota" || Js.includes msg "billing" || Js.includes msg "API key")
    then PlainError ("AI API Key Error: " ++ msg)
    else if Js.truthy msg && Js.includes msg "proxies"
    then PlainError "AI Configuration Error: Server proxy settings issue. Please contact administrator."
    else if Js.truthy msg then PlainError msg
    else AxiosErr e.
Proof.
  intros H1 H2 H3. unfold AIService.getCompletion_catch.
  rewrite H1, H2, H3. reflexivity.
Qed.

(** The provider line, simplified: the second truthiness test passes
    whenever the first did. *)
Lemma with_provider_eq (r : AICompletionResponse) :
  AIService.with_provider r =
  response r ++
    match provider r with
    | Some p => if Js.truthy p then Js.nl ++ Js.nl ++ " (via " ++ p ++ ")" else ""
    | None => ""
    end.
Proof.
  unfold AIService.with_provider, Js.truthy_opt.
  destruct (provider r) as [p|]; [|reflexivity].
  destruct (Js.truthy p); reflexivity.
Qed.

(** On a rejected call every entry point throws what [getCompletion]'s
    catch clause throws. *)
Lemma entry_rejected code lang e :
  at_await (AIService.getCodeCompletion S code lang) (Axios.Rejected e)
    = Throw (AIService.getCompletion_catch (AxiosErr e)) /\
  at_await (AIService.generateDocumentation S code lang) (Axios.Rejected e)
    = Throw (AIService.getCompletion_catch (AxiosErr e)) /\
  at_await (AIService.explainCode S code lang) (Axios.Rejected e)
    = Throw (AIService.getCompletion_catch (AxiosErr e)).
Proof. repeat split; reflexivity. Qed.

(** C5. For each of the three entry points (completion, documentation,
    explanation), on a successful reply the text returned is the reply's
    [response] followed by two newlines and [ (via <provider>)] when the
    reply declares a (non-empty) provider name, and exactly the reply's
    [response] when it declares none; the caller's state is untouched. *)
Theorem C5_provider_suffix (s : S) (code lang : string) (r : AICompletionResponse) :
  let returned :=
    (s, Finished (B := Payload) (R := AICompletionResponse)
          (response r ++
             match provider r with
             | Some p =>
                 if Js.truthy p then Js.nl ++ Js.nl ++ " (via " ++ p ++ ")" else ""
             | None => ""
             end)) in
  run (at_await (AIService.getCodeCompletion S code lang) (Axios.Resolved r)) s
    = returned /\
  run (at_await (AIService.generateDocumentation S code lang) (Axios.Resolved r)) s
    = returned /\
  run (at_await (AIService.explainCode S code lang) (Axios.Resolved r)) s
    = returned.
Proof.
  cbv zeta. rewrite <- with_provider_eq. repeat split; reflexivity.
Qed.

(** The scenario of the specification: a reply without a provider is
    displayed as it is. *)
Example C5_no_provider (s : S) :
  run (at_await (AIService.getCodeCompletion S "def add(a, b):" "python")
         (Axios.Resolved {| response := " # adds two numbers"; response_model := "x";
                            timestamp := "t"; provider := None |})) s
  = (s, Finished " # adds two numbers").
Proof. reflexivity. Qed.

(** C7. Each entry point posts one request to the AI endpoint whose
    [request_type] and [temperature] are those of its kind (completion
    0.3, documentation 0.5, explanation 0.7), whose [language] is the
    active language, and whose [system_prompt] is that kind's template,
    spelled out below, with the language name in its one hole. *)
Theorem C7_request_per_kind (code lang : string) :
  (exists req,
     first_call (AIService.getCodeCompletion S code lang)
       = Some (Axios.post "http://localhost:5002/api/ai/completion" (AIPayload req)) /\
     request_type req = Some Completion /\
     temperature req = Some 0.3%Q /\
     language req = Some lang /\
     system_prompt req =
       Some ("You are an expert " ++ lang ++ " programmer. " ++ Js.nl ++
             "    Provide code completion that is concise, efficient, and follows best practices." ++ Js.nl ++
             "    Only return code without explanation.")) /\
  (exists req,
     first_call (AIService.generateDocumentation S code lang)
       = Some (Axios.post "http://localhost:5002/api/ai/completion" (AIPayload req)) /\
     request_type req = Some Documentation /\
     temperature req = Some 0.5%Q /\
     language req = Some lang /\
     system_prompt req =
       Some ("You are an expert at writing documentation. " ++ Js.nl ++
             "    Analyze the provided " ++ lang ++
             " code and generate clear, comprehensive documentation" ++ Js.nl ++
             "    that explains what the code does, any parameters, return values, and important details.")) /\
  (exists req,
     first_call (AIService.explainCode S code lang)
       = Some (Axios.post "http://localhost:5002/api/ai/completion" (AIPayload req)) /\
     request_type req = Some Explanation /\
     temperature req = Some 0.7%Q /\
     language req = Some lang /\
     system_prompt req =
       Some ("You are a programming teacher who explains code in simple terms." ++ Js.nl ++
             "    Analyze the provided " ++ lang ++
             " code and explain what it does in clear, concise language" ++ Js.nl ++
             "    that a junior developer would understand. Focus on the purpose and logic, not line-by-line details.")).
Proof.
  split; [|split].
  - exists (AIService.getCodeCompletion_request code lang).
    repeat split; reflexivity.
  - exists (AIService.generateDocumentation_request code lang).
    repeat split; reflexivity.
  - exists (AIService.explainCode_request code lang).
    repeat split; reflexivity.
Qed.

(** The three templates differ, whatever the language. *)
Lemma templates_differ (lang : string) :
  AIService.completion_systemPrompt lang <> AIService.documentation_systemPrompt lang /\
  AIService.completion_systemPrompt lang <> AIService.explanation_systemPrompt lang /\
  AIService.documentation_systemPrompt lang <> AIService.explanation_systemPrompt lang.
Proof.
  unfold AIService.completion_systemPrompt, AIService.documentation_systemPrompt,
    AIService.explanation_systemPrompt.
  split; [|split]; intros H.
  - apply (f_equal String.length) in H.
    rewrite !string_length_app in H. cbn in H. lia.
  - cbn in H. inversion H.
  - cbn in H. inversion H.
Qed.

(** The system prompt names the language, whatever it is. *)
Lemma systemPrompt_names_language (lang : string) :
  Js.includes (AIService.completion_systemPrompt lang) lang = true /\
  Js.includes (AIService.documentation_systemPrompt lang) lang = true /\
  Js.includes (AIService.explanation_systemPrompt lang) lang = true.
Proof.
  repeat split.
  - apply includes_app_r, includes_prefix.
  - apply includes_app_r, includes_app_r, includes_app_r, includes_prefix.
  - apply includes_app_r, includes_app_r, includes_app_r, includes_prefix.
Qed.

End ServiceFacts.

(** ** Error classification *)

Section Classification.

Import Api App.

(** [classify], spelled out on the message of the thrown error. *)
Lemma classify_eq prefix e s :
  classify prefix e s =
    let message := error_message (AIService.getCompletion_catch (AxiosErr e)) in
    if Js.truthy message && Js.includes message "AI API Key Error"
    then setIsQuotaError true (setError (Some quota_text) s)
    else if Js.truthy message && Js.includes message "Configuration Error"
    then setIsConfigError true (setError (Some config_text) s)
    else setError (Some (prefix ++ Js.or_else message "Please try again later.")) s.
Proof.
  unfold classify, on_ai_error. cbv zeta.
  destruct (Js.truthy _ && Js.includes _ "AI API Key Error"); [reflexivity|].
  destruct (Js.truthy _ && Js.includes _ "Configuration Error"); reflexivity.
Qed.

(** The message [getCompletion] builds for a quota or key error is
    recognised by the handlers, whatever the server said. *)
Lemma key_error_marked (msg : string) :
  Js.truthy ("AI API Key Error: " ++ msg) &&
  Js.includes ("AI API Key Error: " ++ msg) "AI API Key Error" = true.
Proof. rewrite includes_app_l; reflexivity. Qed.

(** A handler whose call is rejected ends in [classify], then the
    [finally] clause. [handleCleanCode] makes a call only with an editor
    model. *)
Lemma handler_rejected a w e s :
  (a = remove -> editor w <> None) ->
  run (at_await (handler a w) (Axios.Rejected e)) s
    = (setAiLoading false (classify (prefix_of a) e s), Finished tt).
Proof.
  intros Hed. rewrite classify_eq. cbv zeta.
  destruct a; cbn [handler prefix_of].
  4: { destruct (editor w) as [model|] eqn:E; [|now elim Hed].
       unfold handleCleanCode, handleAIError, on_ai_error. cbv zeta.
       cbn [begin_action bind set at_await try_catch try_finally
            AIService.getCodeCompletion AIService.getCompletion await].
       destruct (Js.truthy _ && Js.includes _ "AI API Key Error"); [reflexivity|].
       destruct (Js.truthy _ && Js.includes _ "Configuration Error"); reflexivity. }
  all: unfold handleCompleteCode, handleDocumentCode, handleExplainCode, on_ai_error;
    cbv zeta;
    cbn [begin_action bind set at_await try_catch try_finally
         AIService.getCodeCompletion AIService.generateDocumentation
         AIService.explainCode AIService.getCompletion await];
    (destruct (Js.truthy _ && Js.includes _ "AI API Key Error"); [reflexivity|]);
    destruct (Js.truthy _ && Js.includes _ "Configuration Error"); reflexivity.
Qed.

(** C2 (amended). For a rejected AI call whose reply body has the error
    message [msg]: if [msg] contains "quota", "billing" or "API key" the
    quota/key flag is raised; if it contains none of them but contains
    "proxies" the configuration flag is raised; and for every other
    non-empty [msg] that contains neither "AI API Key Error" nor
    "Configuration Error" no flag is touched and the error shown is the
    handler's prefix followed by [msg] verbatim. *)
Theorem C2_classification prefix (e : Axios.Error) resp b (msg : string) (s : State) :
  Axios.response e = Some resp ->
  Axios.body resp = Some b ->
  Axios.error b = Some msg ->
  let quota :=
    Js.includes msg "quota" || Js.includes msg "billing" || Js.includes msg "API key" in
  let s' := classify prefix e s in
  (quota = true ->
     isQuotaError s' = true /\ isConfigError s' = isConfigError s /\
     error s' = Some quota_text) /\
  (quota = false -> Js.includes msg "proxies" = true ->
     isConfigError s' = true /\ isQuotaError s' = isQuotaError s /\
     error s' = Some config_text) /\
  (quota = false -> Js.includes msg "proxies" = false ->
   Js.truthy msg = true ->
   Js.includes msg "AI API Key Error" = false ->
   Js.includes msg "Configuration Error" = false ->
     isQuotaError s' = isQuotaError s /\ isConfigError s' = isConfigError s /\
     error s' = Some (prefix ++ msg)).
Proof.
  intros H1 H2 H3 quota s'. subst s'.
  rewrite classify_eq, (getCompletion_catch_body e H1 H2 H3). fold quota.
  split; [|split].
  - intros Hq. rewrite Hq.
    assert (Ht : Js.truthy msg = true).
    { unfold quota in Hq. apply orb_true_iff in Hq. destruct Hq as [Hq|Hq];
        [apply orb_true_iff in Hq; destruct Hq as [Hq|Hq]|];
        eapply includes_truthy; eauto. }
    rewrite Ht. cbn [andb error_message]. cbv zeta.
    rewrite key_error_marked. repeat split; reflexivity.
  - intros Hq Hp. rewrite Hq, Hp.
    assert (Ht : Js.truthy msg = true) by (eapply includes_truthy; eauto).
    rewrite Ht. repeat split; reflexivity.
  - intros Hq Hp Ht Hk Hc. rewrite Hq, Hp, Ht. cbn [andb error_message]. cbv zeta.
    rewrite Ht, Hk, Hc. cbn [andb]. unfold Js.or_else. rewrite Ht.
    repeat split; reflexivity.
Qed.

End Classification.

(** ** The invariant of the event loop *)

Section Invariant.

Import Api App.

Lemma keeps_setCode v : keeps_flags (setCode v).
Proof. intros s; split; auto. Qed.
Lemma keeps_setLanguage v : keeps_flags (setLanguage v).
Proof. intros s; split; auto. Qed.
Lemma keeps_setSuggestions v : keeps_flags (setSuggestions v).
Proof. intros s; split; auto. Qed.
Lemma keeps_setError v : keeps_flags (setError v).
Proof. intros s; split; auto. Qed.
Lemma keeps_setLoading v : keeps_flags (setLoading v).
Proof. intros s; split; auto. Qed.
Lemma keeps_setAiResponse v : keeps_flags (setAiResponse v).
Proof. intros s; split; auto. Qed.
Lemma keeps_setAiLoading v : keeps_flags (setAiLoading v).
Proof. intros s; split; auto. Qed.
Lemma keeps_setIsQuotaError_true : keeps_flags (setIsQuotaError true).
Proof. intros s; split; auto. Qed.
Lemma keeps_setIsConfigError_true : keeps_flags (setIsConfigError true).
Proof. intros s; split; auto. Qed.

Create HintDb flags.
Hint Resolve keeps_setCode keeps_setLanguage keeps_setSuggestions keeps_setError
  keeps_setLoading keeps_setAiResponse keeps_setAiLoading
  keeps_setIsQuotaError_true keeps_setIsConfigError_true : flags.

Ltac safe_updates := cbn [Safe bind set]; repeat split; auto with flags.

(** The catch clause of the handlers makes no call and lowers no flag. *)
Lemma on_ai_error_safe prefix e :
  Safe keeps_flags (fun _ : Axios.Request Payload => False) (on_ai_error prefix e).
Proof.
  unfold on_ai_error. cbv zeta.
  destruct (Js.truthy _ && Js.includes _ "AI API Key Error"); [safe_updates|].
  destruct (Js.truthy _ && Js.includes _ "Configuration Error"); safe_updates.
Qed.

(** Once its call has settled, a handler makes no further call and
    lowers no flag. *)
Lemma handler_settled_safe a w o :
  Safe keeps_flags (fun _ => False) (at_await (handler a w) o).
Proof.
  assert (F : Safe keeps_flags (fun _ : Axios.Request Payload => False)
                (set (R := AICompletionResponse) (setAiLoading false)))
    by safe_updates.
  destruct a; cbn [handler].
  4: { unfold handleCleanCode, handleAIError.
       destruct (editor w) as [model|].
       - destruct o as [r|e];
           cbn [begin_action bind set at_await try_catch try_finally
                AIService.getCodeCompletion AIService.getCompletion await].
         + safe_updates.
         + apply Safe_try_finally; [apply on_ai_error_safe | exact F].
       - cbn [begin_action bind set at_await try_catch try_finally]. safe_updates. }
  all: unfold handleCompleteCode, handleDocumentCode, handleExplainCode;
    destruct o as [r|e];
    cbn [begin_action bind set at_await try_catch try_finally
         AIService.getCodeCompletion AIService.generateDocumentation
         AIService.explainCode AIService.getCompletion await];
    [safe_updates | apply Safe_try_finally; [apply on_ai_error_safe | exact F]].
Qed.

Lemma post_configured u (payload : Payload) : configured (Axios.post u payload).
Proof. repeat split. Qed.

Lemma get_configured u : configured (Axios.get Payload u).
Proof. repeat split. Qed.

(** The one call a handler makes goes through the configured client. *)
Lemma handler_call_configured a w c :
  first_call (handler a w) = Some c -> configured c /\ is_ai_call c = true.
Proof.
  destruct a; cbn [handler].
  4: { unfold handleCleanCode. destruct (editor w) as [model|].
       - cbn. intros H; inversion H; subst. split; [apply post_configured | reflexivity].
       - cbn. discriminate. }
  all: cbn; intros H; inversion H; subst; split;
    [apply post_configured | reflexivity].
Qed.

(** [getSuggestions]: one call to the suggestion endpoint, through the
    configured client, and no flag lowered before or after. *)
Lemma getSuggestions_call env lang v :
  first_call (getSuggestions env lang v)
    = Some (Axios.post (BACKEND_URL env ++ "/api/complete") (CompletePayload v lang)).
Proof. reflexivity. Qed.

Lemma getSuggestions_settled_safe env lang v o :
  Safe keeps_flags (fun _ => False) (at_await (getSuggestions env lang v) o).
Proof.
  destruct o as [r|e];
    cbn [getSuggestions bind set at_await try_catch try_finally await].
  - destruct (Api.suggestions r); cbn; repeat split; auto with flags.
  - destruct (getSuggestions_errorMessage (AxiosErr e)); safe_updates.
Qed.

Lemma getSuggestions_safe env lang v :
  Safe keeps_flags (fun c => configured c /\ is_ai_call c = false)
    (getSuggestions env lang v).
Proof.
  cbn [getSuggestions bind set try_catch try_finally await Safe].
  repeat split; auto with flags.
  intros o.
  apply Safe_weaken with (Pu := keeps_flags) (Pc := fun _ => False);
    [auto | contradiction |].
  apply (getSuggestions_settled_safe env lang v o).
Qed.

Lemma verifyBackendConnection_settled_safe env o :
  Safe keeps_flags (fun _ => False) (at_await (verifyBackendConnection env) o).
Proof. destruct o; exact I. Qed.

(** Sending and parking. *)

Lemma run_first_call R A (m : Proc State Payload R A) s c :
  first_call m = Some c ->
  exists k, run m s = (fst (run m s), Parked c k) /\ forall o, k o = at_await m o.
Proof.
  revert s; induction m as [a|e|u m IH|c0 k0 _]; intros s H; simpl in *;
    try discriminate.
  - now apply IH.
  - inversion H; subst. exists k0. split; [reflexivity | reflexivity].
Qed.

Lemma Safe_final_no_call R A Pu (m : Proc State Payload R A) :
  Safe Pu (fun _ => False) m -> first_call m = None.
Proof.
  induction m as [a|e|u m IH|c k _]; simpl; auto.
  - intros [_ H]; auto.
  - intros [[] _].
Qed.

Lemma spawn_final R wrap (p : Proc State Payload R unit) w :
  first_call p = None -> spawn wrap p w = with_app (fst (run p (app w))) w.
Proof.
  intros H. unfold spawn.
  pose proof (run_not_parked p (app w) H) as N.
  destruct (run p (app w)) as [s' [a|e|c k]]; try reflexivity.
  now elim (N c k).
Qed.

Lemma spawn_parked R wrap (p : Proc State Payload R unit) w c :
  first_call p = Some c ->
  exists k,
    (forall o, k o = at_await p o) /\
    spawn wrap p w =
      {| app := fst (run p (app w)); editor := editor w; selection := selection w;
         env := env w; now := now w; timers := timers w; next_timer := next_timer w;
         sent := sent w ++ [c];
         waiting := waiting w ++ [(List.length (sent w), wrap k)] |}.
Proof.
  intros H. destruct (run_first_call p (app w) H) as [k [E K]].
  exists k. split; [exact K|]. unfold spawn. rewrite E. reflexivity.
Qed.

Lemma Inv_with_app s w : Inv w -> Inv (with_app s w).
Proof. intros [A1 A2 A3 A4]; split; assumption. Qed.

Lemma Inv_with_editor m sel w : Inv w -> Inv (with_editor m sel w).
Proof. intros [A1 A2 A3 A4]; split; assumption. Qed.

Lemma spawn_inv R (wrap : (Axios.Outcome R -> Proc State Payload R unit) -> Waiting)
    (p : Proc State Payload R unit) w :
  Inv w ->
  (forall c, first_call p = Some c -> configured c) ->
  (forall o, Safe keeps_flags (fun _ => False) (at_await p o)) ->
  (forall k, (forall o, Safe keeps_flags (fun _ => False) (k o)) -> waiting_ok (wrap k)) ->
  Inv (spawn wrap p w).
Proof.
  intros [A1 A2 A3 A4] Hc Hs Hw.
  destruct (first_call p) as [c|] eqn:F.
  - destruct (spawn_parked wrap p w F) as [k [K E]]. rewrite E.
    split; cbn [timers waiting sent].
    + exact A1.
    + apply Forall_app; split; [exact A2|].
      constructor; [|constructor]. cbn [snd]. apply Hw.
      intros o. rewrite K. apply Hs.
    + rewrite length_app. cbn [List.length]. apply Forall_app; split.
      * eapply Forall_impl; [|exact A3]. intros x Hx. cbn beta in Hx. lia.
      * constructor; [|constructor]. cbn [fst]. lia.
    + apply Forall_app; split; [exact A4|]. constructor; [|constructor]. now apply Hc.
  - rewrite (spawn_final wrap p w F). apply Inv_with_app. split; assumption.
Qed.

(** Spawning a term that makes no call only moves the state. *)
Lemma spawn_settled R wrap (p : Proc State Payload R unit) w :
  Safe keeps_flags (fun _ => False) p ->
  spawn wrap p w = with_app (fst (run p (app w))) w.
Proof. intros H. apply spawn_final. eapply Safe_final_no_call; eauto. Qed.

Lemma spawn_sent R wrap (p : Proc State Payload R unit) w :
  sent (spawn wrap p w) =
  (sent w ++ match first_call p with Some c => [c] | None => [] end)%list.
Proof.
  destruct (first_call p) as [c|] eqn:F.
  - destruct (spawn_parked wrap p w F) as [k [_ E]]. rewrite E. reflexivity.
  - rewrite (spawn_final wrap p w F). cbn. now rewrite app_nil_r.
Qed.

Lemma spawn_app R wrap (p : Proc State Payload R unit) w :
  app (spawn wrap p w) = fst (run p (app w)).
Proof.
  destruct (first_call p) as [c|] eqn:F.
  - destruct (spawn_parked wrap p w F) as [k [_ E]]. rewrite E. reflexivity.
  - rewrite (spawn_final wrap p w F). reflexivity.
Qed.

Lemma Safe_first_call R A Pu Pc (m : Proc State Payload R A) c :
  Safe Pu Pc m -> first_call m = Some c -> Pc c.
Proof.
  induction m as [a|e|u m IH|c0 k _]; simpl; try discriminate.
  - intros [_ H]; auto.
  - intros [H _] E. now inversion E; subst.
Qed.

Lemma take_waiting_In id l k rest :
  take_waiting id l = Some (k, rest) ->
  In (id, k) l /\ forall x, In x rest -> In x l.
Proof.
  revert k rest; induction l as [|[i k0] l IH]; intros k rest H; simpl in H.
  - discriminate.
  - destruct (Nat.eqb i id) eqn:E.
    + apply Nat.eqb_eq in E. inversion H; subst. split; [now left | intros; now right].
    + destruct (take_waiting id l) as [[k' rest']|]; [|discriminate].
      inversion H; subst. destruct (IH k rest' eq_refl) as [I1 I2].
      split; [now right|]. intros x [Hx|Hx]; [now left | right; auto].
Qed.

(** A settling call resumes a continuation that makes no further call. *)
Lemma settle_eq id r w :
  Inv w ->
  settle id r w = w \/
  exists s', (forall Q : State -> Prop,
                (forall u x, keeps_flags u -> Q x -> Q (u x)) -> Q (app w) -> Q s') /\
             exists rest,
               (forall x, In x rest -> In x (waiting w)) /\
               settle id r w =
                 {| app := s'; editor := editor w; selection := selection w;
                    env := env w; now := now w; timers := timers w;
                    next_timer := next_timer w; sent := sent w; waiting := rest |}.
Proof.
  intros [A1 A2 A3 A4]. unfold settle.
  destruct (take_waiting id (waiting w)) as [[k rest]|] eqn:T; [|now left].
  destruct (take_waiting_In _ _ T) as [I1 I2].
  rewrite Forall_forall in A2. specialize (A2 _ I1). cbn [snd] in A2.
  destruct k as [k|k|k], r as [o|o|o]; try (now left); right; cbn [waiting_ok] in A2.
  all: rewrite spawn_settled by apply A2.
  all: eexists; split;
    [ intros Q HQ Hq;
      exact (proj1 (@Safe_run _ _ _ keeps_flags _ Q _ (k o) _ HQ (A2 o) Hq))
    | exists rest; split; [exact I2 | reflexivity] ].
Qed.

Lemma settle_inv id r w : Inv w -> Inv (settle id r w).
Proof.
  intros H. destruct (settle_eq id r H) as [E|[s' [_ [rest [I E]]]]]; rewrite E.
  - exact H.
  - destruct H as [A1 A2 A3 A4]. split; cbn [timers waiting sent]; auto.
    + rewrite Forall_forall in *. auto.
    + rewrite Forall_forall in *. auto.
Qed.

Lemma timer_spawn_inv t w : timer_ok t -> Inv w -> Inv (spawn WaitFetch (callback t) w).
Proof.
  intros [T1 T2] H. apply spawn_inv; auto.
  intros c F. exact (proj1 (Safe_first_call _ _ (callback t) T1 F)).
Qed.

Lemma fire_inv ts w : Forall timer_ok ts -> Inv w -> Inv (fire ts w).
Proof.
  revert w; induction ts as [|t ts IH]; intros w Ht H; cbn [fire]; [exact H|].
  inversion Ht; subst. apply IH; [assumption|]. now apply timer_spawn_inv.
Qed.

Lemma Forall_filter_keep A (P : A -> Prop) f (l : list A) :
  Forall P l -> Forall P (filter f l).
Proof.
  rewrite !Forall_forall. intros H x Hx. apply filter_In in Hx. apply H, Hx.
Qed.

Lemma getSuggestions_timer_ok id d env lang v :
  timer_ok {| timer_id := id; due := d; callback := getSuggestions env lang v |}.
Proof.
  split; cbn [callback].
  - apply getSuggestions_safe.
  - apply getSuggestions_settled_safe.
Qed.

(** *** The synchronous handlers *)

Lemma edit_sync model r text after w0 w :
  Sync w0 w -> Sync w0 (edit model r text after w).
Proof. intros H. unfold edit. apply sync_change, sync_editor, H. Qed.

Lemma handleInsertAtCursor_sync after w : Sync w (handleInsertAtCursor after w).
Proof.
  unfold handleInsertAtCursor.
  destruct (aiResponse (app w)) as [text|]; [|constructor].
  destruct (Js.truthy text) eqn:T; [|constructor].
  destruct (editor w); [|constructor].
  apply sync_code; [exact T|].
  destruct (selection w); apply edit_sync; constructor.
Qed.

Lemma handleApplyAiResponse_sync after w : Sync w (handleApplyAiResponse after w).
Proof.
  unfold handleApplyAiResponse.
  destruct (aiResponse (app w)) as [text|]; [|constructor].
  destruct (Js.truthy text) eqn:T; [|constructor].
  destruct (editor w).
  - apply edit_sync, sync_code; [exact T | constructor].
  - apply sync_code; [exact T | constructor].
Qed.

Lemma handleSuggestionClick_sync text after w :
  Sync w (handleSuggestionClick text after w).
Proof.
  unfold handleSuggestionClick. destruct (editor w); [|constructor].
  apply edit_sync. constructor.
Qed.

Lemma render_sync previous w0 w : Sync w0 w -> Sync w0 (render previous w).
Proof.
  intros H. unfold render.
  destruct (String.eqb (code (app w)) previous); [exact H|].
  destruct (editor w) as [model|]; [|exact H].
  destruct (String.eqb model (code (app w))); [exact H|].
  now apply sync_editor.
Qed.

(** The events handled synchronously by the editor and the editing
    handlers. *)
Lemma react_sync e w :
  match e with
  | EditorChange _ | ClickInsertAtCursor _ | ClickApply _ | ClickSuggestion _ _
  | Monaco _ _ => Sync w (react e w)
  | _ => True
  end.
Proof.
  destruct e; cbn [react]; try exact I.
  - apply sync_change. constructor.
  - destruct (insert_shown (app w)); [apply handleInsertAtCursor_sync | constructor].
  - destruct (apply_shown (app w)); [apply handleApplyAiResponse_sync | constructor].
  - destruct (nth_error _ _); [apply handleSuggestionClick_sync | constructor].
  - apply sync_editor. constructor.
Qed.

Lemma onChange_app value w :
  app (onChange value w) =
  match value with
  | Some v => if Js.truthy v then setCode v (app w) else app w
  | None => app w
  end.
Proof.
  unfold onChange, handleEditorChange. destruct value as [v|]; [|reflexivity].
  destruct (Js.truthy v); reflexivity.
Qed.

(** They send nothing, park nothing and leave clock and environment. *)
Lemma Sync_frame w w' :
  Sync w w' ->
  sent w' = sent w /\ waiting w' = waiting w /\ env w' = env w /\ now w' = now w.
Proof.
  induction 1 as [|m sel w' _ IH|v w' _ _ IH|value w' _ IH]; auto.
  unfold onChange, handleEditorChange. destruct value as [v|]; [|exact IH].
  destruct (Js.truthy v); exact IH.
Qed.

(** A condition on the state that no [setCode] disturbs survives them. *)
Lemma Sync_state (Q : State -> Prop) w w' :
  (forall v s, Q s -> Q (setCode v s)) ->
  Sync w w' -> Q (app w) -> Q (app w').
Proof.
  intros HQ H Hw. induction H as [|m sel w' _ IH|v w' _ _ IH|value w' _ IH]; auto.
  - cbn. now apply HQ.
  - rewrite onChange_app. destruct value as [v|]; [|exact IH].
    destruct (Js.truthy v); [now apply HQ | exact IH].
Qed.

Lemma onChange_inv value w : Inv w -> Inv (onChange value w).
Proof.
  intros H. unfold onChange, handleEditorChange.
  destruct value as [v|]; [|exact H].
  destruct (Js.truthy v); [|exact H]. cbn [fst].
  destruct H as [A1 A2 A3 A4]. split; cbn; auto.
  apply Forall_app; split; [exact A1|].
  constructor; [|constructor]. apply getSuggestions_timer_ok.
Qed.

Lemma Sync_inv w w' : Sync w w' -> Inv w -> Inv w'.
Proof.
  intros H I. induction H as [|m sel w' _ IH|v w' _ _ IH|value w' _ IH]; auto.
  - now apply Inv_with_editor.
  - now apply Inv_with_app.
  - now apply onChange_inv.
Qed.

Lemma click_inv a w : Inv w -> Inv (click a w).
Proof.
  intros H. unfold click. destruct (disabled (app w)); [exact H|].
  apply spawn_inv; auto.
  - intros c F. exact (proj1 (handler_call_configured a w F)).
  - apply handler_settled_safe.
Qed.

Lemma step_inv e w : Inv w -> Inv (step e w).
Proof.
  intros H. unfold step.
  apply (Sync_inv (render_sync _ (sync_refl (react e w)))).
  pose proof (react_sync e w) as S.
  destruct e; cbn [react] in *; try exact (Sync_inv S H).
  - unfold elapse. apply fire_inv.
    + apply Forall_filter_keep, H.
    + destruct H as [A1 A2 A3 A4]. split; cbn [timers waiting sent]; auto.
      now apply Forall_filter_keep.
  - now apply click_inv.
  - now apply settle_inv.
  - now apply Inv_with_app.
  - destruct (snackbar_open (app w)); [|exact H]. now apply Inv_with_app.
Qed.

Lemma start_inv env : Inv (start env).
Proof.
  unfold start. apply spawn_inv.
  - split; constructor.
  - intros c F. inversion F; subst. apply get_configured.
  - apply verifyBackendConnection_settled_safe.
  - auto.
Qed.

Lemma reachable_inv w : Reachable w -> Inv w.
Proof.
  induction 1 as [env|e w _ IH]; [apply start_inv | now apply step_inv].
Qed.

Lemma reachable_steps es w : Reachable w -> Reachable (steps es w).
Proof.
  revert w; induction es as [|e es IH]; intros w H; cbn [steps]; [exact H|].
  apply IH. now constructor.
Qed.

(** *** What stays once a condition on the state is set

    [Q] is any condition that safe updates keep and that disables the
    action buttons: "the quota flag is up", "the configuration flag is
    up". *)

Section Keeps.

Variable Q : State -> Prop.
Hypothesis Q_kept : forall u x, keeps_flags u -> Q x -> Q (u x).
Hypothesis Q_disables : forall s, Q s -> disabled s = true.

Lemma fire_keeps ts w : Forall timer_ok ts -> Q (app w) -> Q (app (fire ts w)).
Proof.
  revert w; induction ts as [|t ts IH]; intros w Ht H; cbn [fire]; [exact H|].
  inversion Ht as [|t' ts' [T1 T2] Hts]; subst. apply IH; [assumption|].
  rewrite spawn_app.
  exact (proj1 (Safe_run _ _ Q (callback t) (app w) Q_kept T1 H)).
Qed.

Lemma step_keeps e w : Inv w -> Q (app w) -> Q (app (step e w)).
Proof.
  intros I H. unfold step.
  assert (K : forall v s, Q s -> Q (setCode v s))
    by (intros v s Hs; apply Q_kept; auto with flags).
  apply (Sync_state Q K (render_sync _ (sync_refl (react e w)))).
  pose proof (react_sync e w) as S.
  destruct e; cbn [react] in *; try exact (Sync_state Q K S H).
  - unfold elapse. apply fire_keeps; [apply Forall_filter_keep, I | exact H].
  - unfold click. now rewrite (Q_disables H).
  - destruct (settle_eq id r I) as [E|[s' [T [rest [_ E]]]]]; rewrite E;
      [exact H | cbn [app]; now apply T].
  - cbn. apply Q_kept; auto with flags.
  - destruct (snackbar_open (app w)); [|exact H]. cbn. apply Q_kept; auto with flags.
Qed.

Lemma steps_keeps es w : Inv w -> Q (app w) -> Q (app (steps es w)).
Proof.
  revert w; induction es as [|e es IH]; intros w I H; cbn [steps]; [exact H|].
  apply IH; [now apply step_inv | now apply step_keeps].
Qed.

End Keeps.

(** Requests to the AI endpoint come from clicks on enabled buttons only. *)
Lemma fire_ai_calls ts w : Forall timer_ok ts -> ai_calls (fire ts w) = ai_calls w.
Proof.
  revert w; induction ts as [|t ts IH]; intros w Ht; cbn [fire]; [reflexivity|].
  inversion Ht as [|t' ts' [T1 T2] Hts]; subst. rewrite IH by assumption.
  unfold ai_calls. rewrite spawn_sent, filter_app.
  destruct (first_call (callback t)) as [c|] eqn:F; cbn [filter].
  - rewrite (proj2 (Safe_first_call _ _ (callback t) T1 F)). apply app_nil_r.
  - apply app_nil_r.
Qed.

Lemma step_ai_calls e w :
  Inv w -> disabled (app w) = true -> ai_calls (step e w) = ai_calls w.
Proof.
  intros I D. unfold step, ai_calls.
  rewrite (proj1 (Sync_frame (render_sync _ (sync_refl (react e w))))).
  pose proof (react_sync e w) as S. fold (ai_calls (react e w)) (ai_calls w).
  destruct e; cbn [react] in *;
    try (unfold ai_calls; now rewrite (proj1 (Sync_frame S))).
  - unfold elapse. rewrite fire_ai_calls by apply Forall_filter_keep, I. reflexivity.
  - unfold click. now rewrite D.
  - destruct (settle_eq id r I) as [E|[s' [_ [rest [_ E]]]]]; rewrite E; reflexivity.
  - reflexivity.
  - destruct (snackbar_open (app w)); reflexivity.
Qed.

Lemma quota_disables s : isQuotaError s = true -> disabled s = true.
Proof. unfold disabled. intros ->. now rewrite !orb_true_r. Qed.

Lemma config_disables s : isConfigError s = true -> disabled s = true.
Proof. unfold disabled. intros ->. now rewrite !orb_true_r. Qed.

Lemma quota_kept u x : keeps_flags u -> isQuotaError x = true -> isQuotaError (u x) = true.
Proof. intros K. apply K. Qed.

Lemma config_kept u x : keeps_flags u -> isConfigError x = true -> isConfigError (u x) = true.
Proof. intros K. apply K. Qed.

Lemma steps_ai_calls (Q : State -> Prop) es w :
  (forall u x, keeps_flags u -> Q x -> Q (u x)) ->
  (forall s, Q s -> disabled s = true) ->
  Inv w -> Q (app w) -> ai_calls (steps es w) = ai_calls w.
Proof.
  intros K D. revert w; induction es as [|e es IH]; intros w I H; cbn [steps];
    [reflexivity|].
  rewrite IH; [ | now apply step_inv | now apply step_keeps ].
  apply step_ai_calls; auto.
Qed.

(** C3. In any state the page can reach with the quota/key flag or the
    configuration flag up, a click on Complete, Document, Explain or
    Clean changes nothing; and whatever happens next (edits, timers,
    replies, clicks, insertions, language changes, closing the
    notification), each flag that was up is still up, every such click is
    still a no-op, and no request has gone to the AI endpoint. *)
Theorem C3_blocked_until_cleared (w : World) :
  Reachable w ->
  blocked (app w) = true ->
  (forall a, click a w = w) /\
  (forall es,
     let w' := steps es w in
     (isQuotaError (app w) = true -> isQuotaError (app w') = true) /\
     (isConfigError (app w) = true -> isConfigError (app w') = true) /\
     blocked (app w') = true /\
     (forall a, click a w' = w') /\
     ai_calls w' = ai_calls w).
Proof.
  intros Hr Hb. pose proof (reachable_inv Hr) as I.
  assert (D : forall x, blocked (app x) = true -> forall a, click a x = x).
  { intros x Hx a. unfold click, disabled. unfold blocked in Hx.
    apply orb_true_iff in Hx. destruct Hx as [-> | ->];
      now rewrite ?orb_true_r. }
  split; [now apply D|].
  intros es w'. subst w'.
  assert (Hq : isQuotaError (app w) = true -> isQuotaError (app (steps es w)) = true).
  { intros H. apply (steps_keeps (fun s => isQuotaError s = true)); auto.
    - apply quota_kept.
    - apply quota_disables. }
  assert (Hc : isConfigError (app w) = true -> isConfigError (app (steps es w)) = true).
  { intros H. apply (steps_keeps (fun s => isConfigError s = true)); auto.
    - apply config_kept.
    - apply config_disables. }
  assert (Hb' : blocked (app (steps es w)) = true).
  { unfold blocked in *. apply orb_true_iff in Hb. apply orb_true_iff.
    destruct Hb; [left | right]; auto. }
  repeat split; auto.
  unfold blocked in Hb. apply orb_true_iff in Hb. destruct Hb as [H|H].
  - apply (steps_ai_calls (fun s => isQuotaError s = true)); auto.
    + apply quota_kept.
    + apply quota_disables.
  - apply (steps_ai_calls (fun s => isConfigError s = true)); auto.
    + apply config_kept.
    + apply config_disables.
Qed.

(** *** One call per trigger *)

Lemma handler_first_call a w :
  (a = remove -> editor w <> None) ->
  exists c, first_call (handler a w) = Some c.
Proof.
  intros Hed. destruct a; cbn [handler].
  4: { unfold handleCleanCode. destruct (editor w) as [model|]; [|now elim Hed].
       eexists. reflexivity. }
  all: eexists; reflexivity.
Qed.

Lemma settle_sent id r w : Inv w -> sent (settle id r w) = sent w.
Proof.
  intros I. destruct (settle_eq id r I) as [E|[s' [_ [rest [_ E]]]]]; now rewrite E.
Qed.

(** C8 (amended). In every state the page can reach: each request sent
    so far carries the 10 s timeout and the JSON [Accept] header, and the
    JSON [Content-Type] header exactly when it has a body (the two POSTs
    have one, the body-less GET probe leaves without it); a click on an
    enabled Complete, Document or Explain button, or on Clean while an
    editor model exists, sends exactly one request, to the AI endpoint;
    Clean without an editor model sends none; and no reply, success or
    failure, makes the page send anything: there is no retry. *)
Theorem C8_configured_single_call (w : World) :
  Reachable w ->
  Forall configured (sent w) /\
  (forall a,
     disabled (app w) = false -> (a = remove -> editor w <> None) ->
     exists c, sent (click a w) = (sent w ++ [c])%list /\ is_ai_call c = true) /\
  (editor w = None -> sent (click remove w) = sent w) /\
  (forall id r, sent (settle id r w) = sent w).
Proof.
  intros Hr. pose proof (reachable_inv Hr) as I.
  split; [apply I|]. split; [|split].
  - intros a D Hed. unfold click. rewrite D.
    destruct (@handler_first_call a w Hed) as [c F].
    exists c. rewrite spawn_sent, F. split; [reflexivity|].
    apply (handler_call_configured a w F).
  - intros E. unfold click. destruct (disabled (app w)); [reflexivity|].
    rewrite spawn_sent. cbn [handler]. unfold handleCleanCode. rewrite E.
    cbn. apply app_nil_r.
  - intros id r. now apply settle_sent.
Qed.

(** *** From the handlers to the page *)

Lemma take_waiting_last n k (l : list (nat * Waiting)) :
  Forall (fun p => fst p < n) l ->
  take_waiting n (l ++ [(n, k)]) = Some (k, l).
Proof.
  induction 1 as [|[i k0] l Hi _ IH]; cbn [take_waiting Datatypes.app].
  - now rewrite Nat.eqb_refl.
  - cbn [fst] in Hi. destruct (Nat.eqb_spec i n); [lia|]. now rewrite IH.
Qed.

(** An enabled button is clicked and its call is rejected before anything
    else happens: the page state is the state after the click, classified,
    with [aiLoading] off. *)
Lemma click_then_rejected a w e :
  Reachable w ->
  disabled (app w) = false ->
  (a = remove -> editor w <> None) ->
  app (settle (List.length (sent w)) (ReplyAction (Axios.Rejected e)) (click a w))
    = setAiLoading false (classify (prefix_of a) e (app (click a w))).
Proof.
  intros Hr D Hed. pose proof (reachable_inv Hr) as I.
  unfold click. rewrite D.
  destruct (@handler_first_call a w Hed) as [c F].
  destruct (spawn_parked WaitAction (handler a w) w F) as [k [K E]].
  rewrite E. unfold settle. cbn [waiting].
  rewrite (take_waiting_last (WaitAction k) (inv_keys I)).
  rewrite K, spawn_settled by apply handler_settled_safe.
  cbn [app with_app]. now rewrite (@handler_rejected a w e _ Hed).
Qed.

End Invariant.

(** ** The suggestion fetcher *)

Section Suggestions.

Import Api App.

(** The message of a failed fetch is one of four texts and never empty;
    the one read that can throw is that of a [null] body. *)
Lemma errorMessage_cases (error : JsError) :
  match getSuggestions_errorMessage error with
  | Yields m =>
      (m = "Cannot connect to the backend server. Please make sure it is running." \/
       (exists detail, m = "Server error: " ++ detail) \/
       m = "No response from server. Please check your connection." \/
       m = generic_text) /\
      Js.truthy m = true
  | Throws thrown =>
      thrown = null_read /\
      exists e resp,
        error = AxiosErr e /\ Axios.response e = Some resp /\ Axios.body resp = None
  end.
Proof.
  unfold getSuggestions_errorMessage.
  destruct error as [e|msg]; [|split; [auto | reflexivity]].
  destruct (match Axios.code e with Some c => String.eqb c "ECONNREFUSED" | None => false end);
    [split; [auto | reflexivity]|].
  destruct (Axios.response e) as [resp|] eqn:R.
  - destruct (Axios.body resp) as [b|] eqn:B.
    + split; [right; left; eexists; reflexivity | reflexivity].
    + split; [reflexivity|]. now exists e, resp.
  - destruct (Axios.request e); split; auto.
Qed.

Lemma errorMessage_yields (e : Axios.Error) :
  (forall resp, Axios.response e = Some resp -> Axios.body resp <> None) ->
  exists m, getSuggestions_errorMessage (AxiosErr e) = Yields m /\ Js.truthy m = true.
Proof.
  intros H. pose proof (errorMessage_cases (AxiosErr e)) as C.
  destruct (getSuggestions_errorMessage (AxiosErr e)) as [m|thrown].
  - exists m. split; [reflexivity | apply C].
  - destruct C as [_ [e' [resp [E [R B]]]]]. inversion E; subst e'.
    now elim (H resp R).
Qed.

(** C6 (amended). When the suggestion call is rejected, whatever the
    rejection (connection refused, a server error reply, no reply,
    anything else), the rest of [getSuggestions] turns [loading] off and
    leaves both blocking flags exactly as they were. Unless the rejection
    is a server reply whose body is [null] (left out here), it also runs
    to its end, empties the list and sets the error to a non-empty
    message that depends only on the rejection; the transient
    notification showing that message is open exactly when no blocking
    flag was up. *)
Theorem C6_fetch_failure env lang v (e : Axios.Error) (s : State) :
  let rest := run (at_await (getSuggestions env lang v) (Axios.Rejected e)) s in
  let s' := fst rest in
  (loading s' = false /\
   isQuotaError s' = isQuotaError s /\
   isConfigError s' = isConfigError s) /\
  ((forall resp, Axios.response e = Some resp -> Axios.body resp <> None) ->
   exists m,
     getSuggestions_errorMessage (AxiosErr e) = Yields m /\
     Js.truthy m = true /\
     snd rest = Finished tt /\
     suggestions s' = [] /\
     error s' = Some m /\
     snackbar_open s' = negb (isQuotaError s) && negb (isConfigError s)).
Proof.
  cbv zeta.
  cbn [getSuggestions bind set at_await try_catch try_finally await].
  split.
  - destruct (getSuggestions_errorMessage (AxiosErr e)); repeat split.
  - intros H. destruct (errorMessage_yields e H) as [m [E T]].
    exists m. rewrite E. split; [reflexivity|]. split; [exact T|].
    cbn [bind set try_catch try_finally run fst snd].
    repeat split.
    unfold snackbar_open. cbn [error setLoading setSuggestions setError
      isQuotaError isConfigError Js.truthy_opt].
    now rewrite T.
Qed.

(** What the amended statement leaves out: a server reply with a [null]
    body. The read of [error.response.data.error] throws inside the catch
    clause, so neither the error nor the list is set; only the [finally]
    clause runs. *)
Lemma null_body_skips_the_catch env lang v (e : Axios.Error) resp (s : State) :
  Axios.code e <> Some "ECONNREFUSED" ->
  Axios.response e = Some resp ->
  Axios.body resp = None ->
  run (at_await (getSuggestions env lang v) (Axios.Rejected e)) s
    = (setLoading false s, Uncaught null_read).
Proof.
  intros C R B.
  cbn [getSuggestions bind set at_await try_catch try_finally await].
  unfold getSuggestions_errorMessage. rewrite R, B.
  destruct (Axios.code e) as [c|]; [|reflexivity].
  destruct (String.eqb_spec c "ECONNREFUSED"); [subst; now elim C | reflexivity].
Qed.

(** C10. When the suggestion call succeeds, the list becomes the reply's
    [suggestions] if the reply has that field; if the field is missing
    the reply is handled as a failure: the list is emptied and the
    generic message is set. Either way the list is a list, [loading] ends
    off and no blocking flag moves. *)
Theorem C10_missing_suggestions env lang v (r : CompleteResponse) (s : State) :
  let s' := fst (run (at_await (getSuggestions env lang v) (Axios.Resolved r)) s) in
  snd (run (at_await (getSuggestions env lang v) (Axios.Resolved r)) s) = Finished tt /\
  suggestions s' =
    match Api.suggestions r with Some l => l | None => [] end /\
  error s' =
    match Api.suggestions r with Some _ => error s | None => Some generic_text end /\
  loading s' = false /\
  isQuotaError s' = isQuotaError s /\
  isConfigError s' = isConfigError s.
Proof.
  cbv zeta.
  cbn [getSuggestions bind set at_await try_catch try_finally await].
  destruct (Api.suggestions r) as [l|]; repeat split; reflexivity.
Qed.

(** C9. An [undefined] or empty value leaves the whole world as it was:
    no state change, no timer. A non-empty value sets [code] to it and
    sets one timer, 500 ms ahead, that will call [getSuggestions] on that
    value; nothing is sent yet. *)
Theorem C9_empty_change_ignored (w : World) :
  onChange None w = w /\
  onChange (Some "") w = w /\
  forall (c : ascii) (rest : string),
    let v := String c rest in
    app (onChange (Some v) w) = setCode v (app w) /\
    timers (onChange (Some v) w) =
      (timers w ++
         [{| timer_id := next_timer w; due := now w + 500;
             callback := getSuggestions (env w) (language (app w)) v |}])%list /\
    sent (onChange (Some v) w) = sent w.
Proof. repeat split; reflexivity. Qed.

End Suggestions.

(** ** Timers: what the 500 ms delay does and does not do *)

Section Debounce.

Import Api App.

(** [handleEditorChange] cancels nothing: a timer set by an earlier edit
    is still pending after the next one. *)
Lemma onChange_cancels_nothing value w t :
  In t (timers w) -> In t (timers (onChange value w)).
Proof.
  intros H. unfold onChange, handleEditorChange.
  destruct value as [v|]; [|exact H]. destruct (Js.truthy v); [|exact H].
  cbn. apply in_or_app. now left.
Qed.

Lemma fire_counts ts w :
  Forall (fun t => first_call (callback t) <> None) ts ->
  List.length (sent (fire ts w)) = List.length (sent w) + List.length ts /\
  timers (fire ts w) = timers w /\ now (fire ts w) = now w.
Proof.
  revert w; induction ts as [|t ts IH]; intros w H; cbn [fire].
  - cbn. repeat split. lia.
  - inversion H as [|t' ts' Ht Hts]; subst.
    destruct (IH (spawn WaitFetch (callback t) w) Hts) as [L [T N]].
    rewrite L, T, N, spawn_sent.
    destruct (first_call (callback t)) as [c|] eqn:F; [|now elim Ht].
    destruct (spawn_parked WaitFetch (callback t) w F) as [k [_ E]].
    rewrite E. cbn [timers now List.length]. rewrite length_app. cbn. repeat split. lia.
Qed.

Lemma filter_split A (f : A -> bool) (l : list A) :
  List.length (filter f l) + List.length (filter (fun x => negb (f x)) l)
    = List.length l.
Proof.
  induction l as [|x l IH]; [reflexivity|]. cbn. destruct (f x); cbn; lia.
Qed.

Lemma elapse_owed ms w :
  pending_ok w -> pending_ok (elapse ms w) /\ owed (elapse ms w) = owed w.
Proof.
  intros P. unfold elapse.
  set (ready := filter (fun x => Nat.leb (due x) (now w + ms)) (timers w)).
  set (later := filter (fun x => negb (Nat.leb (due x) (now w + ms))) (timers w)).
  set (w0 := {| app := app w; editor := editor w; selection := selection w;
                env := env w; now := now w + ms; timers := later;
                next_timer := next_timer w; sent := sent w; waiting := waiting w |}).
  assert (R : Forall (fun t => first_call (callback t) <> None) ready).
  { apply Forall_filter_keep. eapply Forall_impl; [|exact P]. now intros t [_ H]. }
  destruct (fire_counts w0 R) as [L [T N]].
  split.
  - unfold pending_ok. rewrite T, N. unfold w0. cbn [timers now].
    unfold later. rewrite Forall_forall. intros t Ht. apply filter_In in Ht.
    destruct Ht as [Ht _]. unfold pending_ok in P. rewrite Forall_forall in P.
    destruct (P t Ht). split; [lia | assumption].
  - unfold owed. rewrite L, T. unfold w0. cbn [sent timers].
    pose proof (filter_split (fun x => Nat.leb (due x) (now w + ms)) (timers w)).
    cbv beta in H. fold ready later in H. lia.
Qed.

Lemma edit_owed v w :
  Js.truthy v = true -> pending_ok w ->
  pending_ok (onChange (Some v) w) /\ owed (onChange (Some v) w) = Datatypes.S (owed w).
Proof.
  intros Tv P. unfold onChange, handleEditorChange. rewrite Tv. cbn [fst].
  split.
  - unfold pending_ok. cbn. apply Forall_app; split; [exact P|].
    constructor; [|constructor]. cbn. split; [lia | discriminate].
  - unfold owed. cbn. rewrite length_app. cbn. lia.
Qed.

Lemma render_owed previous w :
  pending_ok w -> pending_ok (render previous w) /\ owed (render previous w) = owed w.
Proof.
  intros P. unfold render.
  destruct (String.eqb (code (app w)) previous); [auto|].
  destruct (editor w) as [model|]; [|auto].
  destruct (String.eqb model (code (app w))); [auto|].
  split; [exact P | reflexivity].
Qed.

Lemma burst_owed edits w :
  Forall (fun e => Js.truthy (fst e) = true) edits -> pending_ok w ->
  pending_ok (steps (burst edits) w) /\
  owed (steps (burst edits) w) = owed w + List.length edits.
Proof.
  revert w; induction edits as [|[v pause] edits IH]; intros w H P; cbn [burst steps].
  - split; [exact P | cbn; lia].
  - inversion H as [|x l Hv Hl]; subst. cbn [fst] in Hv.
    unfold step at 2 3. cbn [react].
    destruct (@edit_owed v w Hv P) as [P1 O1].
    destruct (render_owed (code (app w)) P1) as [P1' O1'].
    unfold step. cbn [react].
    destruct (@elapse_owed pause _ P1') as [P2 O2].
    destruct (render_owed
                (code (app (render (code (app w)) (onChange (Some v) w)))) P2)
      as [P2' O2'].
    destruct (IH _ Hl P2') as [P3 O3].
    split; [exact P3|]. rewrite O3, O2', O2, O1', O1. cbn [List.length]. lia.
Qed.

Lemma none_later n (l : list Timer) :
  Forall (fun t => due t <= n) l ->
  filter (fun x => negb (Nat.leb (due x) n)) l = [].
Proof.
  induction 1 as [|t l Hd _ IH]; [reflexivity|].
  cbn [filter]. destruct (Nat.leb_spec (due t) n); [exact IH | lia].
Qed.

(** After 500 quiet milliseconds no timer is left. *)
Lemma quiet_drains w : pending_ok w -> timers (elapse 500 w) = [].
Proof.
  intros P. unfold elapse.
  set (ready := filter (fun x => Nat.leb (due x) (now w + 500)) (timers w)).
  assert (R : Forall (fun t => first_call (callback t) <> None) ready).
  { apply Forall_filter_keep. eapply Forall_impl; [|exact P]. now intros t [_ H]. }
  match goal with |- timers (fire ready ?w0) = _ =>
    destruct (fire_counts w0 R) as [_ [T _]]; rewrite T end.
  cbn [timers]. apply none_later. eapply Forall_impl; [|exact P]. now intros t [H _].
Qed.

(** X12. What the code does with a burst: from page load, [n] non-empty edits
    however close together, then 500 quiet milliseconds, and [n]
    suggestion requests have been sent (after the mount probe). *)
Lemma burst_sends_every_edit env (edits : list (string * nat)) :
  Forall (fun e => Js.truthy (fst e) = true) edits ->
  let w := elapse 500 (steps (burst edits) (start env)) in
  List.length (sent w) = 1 + List.length edits /\ timers w = [].
Proof.
  intros H w.
  assert (P0 : pending_ok (start env)) by constructor.
  destruct (@burst_owed edits _ H P0) as [P1 O1].
  destruct (@elapse_owed 500 _ P1) as [_ O2].
  pose proof (@quiet_drains _ P1) as D. subst w.
  split; [|exact D].
  unfold owed in O2 at 1. rewrite D in O2. cbn [List.length] in O2.
  rewrite Nat.add_0_r in O2. rewrite O2, O1. reflexivity.
Qed.

(** C1, on the code: three edits 100 ms apart, then quiet. The
    specification calls for one suggestion request, for the last value; the page
    sends three, one per edit and each with that edit's value, because
    the closure [handleEditorChange] returns is never called and so no
    timer is cleared. *)
Theorem C1_burst_of_three_sends_three :
  let w := steps [EditorChange (Some "a"); Elapse 100;
                  EditorChange (Some "ab"); Elapse 100;
                  EditorChange (Some "abc"); Elapse 500] (start None) in
  map (fun r => Axios.data r) (tl (sent w)) =
    [Some (CompletePayload "a" "python");
     Some (CompletePayload "ab" "python");
     Some (CompletePayload "abc" "python")].
Proof. reflexivity. Qed.

End Debounce.

(** ** Inserting the AI response into the editor *)

Section Insertion.

Import Api App.

Lemma substring_none n (s : string) : substring n 0 s = "".
Proof.
  revert n; induction s as [|c s IH]; intros [|n]; cbn; auto.
Qed.

Lemma append_empty (s : string) : s ++ "" = s.
Proof. induction s as [|c s IH]; cbn; [reflexivity | now rewrite IH]. Qed.

(** Replacing the full range of the model leaves exactly the new text. *)
Lemma replace_full_range model text :
  pushEditOperations model (getFullModelRange model) text = text.
Proof.
  unfold pushEditOperations, getFullModelRange, Js.splice. cbn [startOffset endOffset].
  rewrite Nat.sub_diag, !substring_none. cbn. apply append_empty.
Qed.

Lemma onChange_editor value w :
  editor (onChange value w) = editor w /\ selection (onChange value w) = selection w.
Proof.
  unfold onChange, handleEditorChange. destruct value as [v|]; [|split; reflexivity].
  destruct (Js.truthy v); split; reflexivity.
Qed.

(** The handler's own edit touches the selection only, or the whole model
    when nothing is selected; [code] becomes the response alone. *)
Lemma insert_edits_selection after w model text :
  aiResponse (app w) = Some text -> Js.truthy text = true ->
  stored_as_given text = true ->
  editor w = Some model ->
  editor (handleInsertAtCursor after w)
    = Some (match selection w with
            | Some sel =>
                substring 0 (startOffset sel) model ++ text ++
                substring (endOffset sel) (String.length model - endOffset sel) model
            | None => text
            end) /\
  code (app (handleInsertAtCursor after w)) = text.
Proof.
  intros Ha Ht _ He. unfold handleInsertAtCursor. rewrite Ha, Ht, He.
  split; [|reflexivity]. cbn [editor with_app].
  destruct (selection w) as [sel|]; unfold edit;
    rewrite (proj1 (onChange_editor _ _)); cbn [editor with_editor].
  - reflexivity.
  - now rewrite replace_full_range.
Qed.

(** On the page the render that follows writes the new [code] back into
    the editor: a click on "Insert at Cursor" with a response other than
    the current [code] (and free of carriage returns) leaves model and
    [code] both equal to the response, selection or not. *)
Lemma insert_click_replaces_model after w model text :
  insert_shown (app w) = true ->
  aiResponse (app w) = Some text ->
  stored_as_given text = true ->
  editor w = Some model ->
  text <> code (app w) ->
  editor (step (ClickInsertAtCursor after) w) = Some text /\
  code (app (step (ClickInsertAtCursor after) w)) = text.
Proof.
  intros Hs Ha Hg He Hn.
  assert (Ht : Js.truthy text = true).
  { unfold insert_shown, response_shown in Hs. rewrite Ha in Hs. cbn in Hs.
    destruct (Js.truthy text); [reflexivity|].
    now rewrite andb_false_r in Hs. }
  destruct (insert_edits_selection after w Ha Ht Hg He) as [E C].
  unfold step. cbn [react]. rewrite Hs. unfold render. rewrite C.
  destruct (String.eqb_spec text (code (app w))) as [Heq|_]; [now elim Hn|].
  rewrite E.
  match goal with |- context [String.eqb ?m text] =>
    destruct (String.eqb_spec m text) as [Hm|_] end.
  - rewrite E, C, Hm. split; reflexivity.
  - cbn [editor app with_editor]. rewrite C. split; reflexivity.
Qed.

(** C4, on the page: the model holds [abc] with [b] selected, [code] is
    [abc], the AI answers [X], the user presses "Insert at Cursor". The
    handler's edit does replace the selection only (the model is [aXc]
    when it returns), but it then sets [code] to [X] alone, and the render
    that follows writes that [code] over the whole model: the page ends
    with model [X], wherever Monaco leaves the selection. *)
Theorem C4_insert_with_selection_replaces_model :
  forall after : option Range,
    let before :=
      steps [Monaco (Some "abc") (Some {| startOffset := 1; endOffset := 2 |});
             EditorChange (Some "abc");
             Click complete;
             Settle 1 (ReplyAction (Axios.Resolved
               {| response := "X"; response_model := "m"; timestamp := "t";
                  provider := None |}))] (start None) in
    Reachable before /\
    editor before = Some "abc" /\
    selection before = Some {| startOffset := 1; endOffset := 2 |} /\
    code (app before) = "abc" /\
    aiResponse (app before) = Some "X" /\
    insert_shown (app before) = true /\
    editor (handleInsertAtCursor after before) = Some "aXc" /\
    editor (step (ClickInsertAtCursor after) before) = Some "X" /\
    code (app (step (ClickInsertAtCursor after) before)) = "X".
Proof.
  intros after. split; [|repeat split; reflexivity].
  apply reach_step, reach_step, reach_step, reach_step, reach_start.
Qed.

End Insertion.

(** ** Scenarios *)

Section Scenarios.

Import Api App.

(** C2, as stated, fails: the body [{error: "Configuration Error: unknown
    model"}] contains none of "quota", "billing", "API key", "proxies",
    so the specification classifies it as a generic error; [getCompletion]
    re-throws the message as it is, and the handler, which looks for
    "Configuration Error" in the message, raises the configuration flag. *)
Lemma C2_marker_in_body_counterexample :
  ~ (forall prefix (e : Axios.Error) resp b (msg : string) (s : State),
       Axios.response e = Some resp ->
       Axios.body resp = Some b ->
       Axios.error b = Some msg ->
       Js.includes msg "quota" || Js.includes msg "billing" ||
         Js.includes msg "API key" = false ->
       Js.includes msg "proxies" = false ->
       let s' := classify prefix e s in
       isQuotaError s' = isQuotaError s /\ isConfigError s' = isConfigError s /\
       error s' = Some (prefix ++ msg)).
Proof.
  intros H.
  specialize (H (prefix_of complete)
                (server_error 400 "BAD REQUEST" "Configuration Error: unknown model")
                _ _ _ initial eq_refl eq_refl eq_refl eq_refl eq_refl).
  destruct H as [_ [H _]]. vm_compute in H. discriminate H.
Qed.

(** The same reply, through the page: the configuration banner is up and
    the four buttons are disabled. *)
Example marker_in_body_blocks_the_page :
  let w :=
    steps [Click complete;
           Settle 1 (ReplyAction (Axios.Rejected
             (server_error 400 "BAD REQUEST" "Configuration Error: unknown model")))]
      (start None) in
  isConfigError (app w) = true /\ disabled (app w) = true.
Proof. split; reflexivity. Qed.

Lemma C2_classification_witness :
  isQuotaError
    (classify (prefix_of complete)
       (server_error 429 "TOO MANY REQUESTS"
          "You exceeded your current quota, check billing") initial) = true /\
  isConfigError
    (classify (prefix_of complete)
       (server_error 500 "INTERNAL SERVER ERROR" "proxies argument not supported")
       initial) = true /\
  error
    (classify (prefix_of complete)
       (server_error 503 "SERVICE UNAVAILABLE" "model overloaded") initial)
    = Some "Failed to get code completion from AI: model overloaded".
Proof.
  split; [|split].
  - apply (proj1 (C2_classification (prefix_of complete)
             (server_error 429 "TOO MANY REQUESTS"
                "You exceeded your current quota, check billing")
             initial eq_refl eq_refl eq_refl)).
    reflexivity.
  - apply (proj1 (proj2 (C2_classification (prefix_of complete)
             (server_error 500 "INTERNAL SERVER ERROR" "proxies argument not supported")
             initial eq_refl eq_refl eq_refl))); reflexivity.
  - apply (proj2 (proj2 (C2_classification (prefix_of complete)
             (server_error 503 "SERVICE UNAVAILABLE" "model overloaded")
             initial eq_refl eq_refl eq_refl))); reflexivity.
Defined.

Lemma C3_blocked_until_cleared_witness :
  Reachable after_quota_failure /\
  blocked (app after_quota_failure) = true /\
  (forall a, click a after_quota_failure = after_quota_failure) /\
  (forall es,
     let w' := steps es after_quota_failure in
     (isQuotaError (app after_quota_failure) = true -> isQuotaError (app w') = true) /\
     (isConfigError (app after_quota_failure) = true -> isConfigError (app w') = true) /\
     blocked (app w') = true /\
     (forall a, click a w' = w') /\
     ai_calls w' = ai_calls after_quota_failure).
Proof.
  assert (Hr : Reachable after_quota_failure)
    by (apply reach_step, reach_step, reach_start).
  assert (Hb : blocked (app after_quota_failure) = true) by reflexivity.
  split; [exact Hr|]. split; [exact Hb|].
  exact (C3_blocked_until_cleared Hr Hb).
Defined.

(** C6, as stated, fails: after a quota failure has raised its banner the
    user types, the suggestion call made 500 ms later gets no reply. The
    list is emptied and the error message is set, but the notification
    that would show it stays closed, because it opens only while no
    blocking flag is up: nothing is surfaced. *)
Lemma C6_hidden_behind_banner_counterexample :
  let w :=
    steps [EditorChange (Some "x"); Elapse 500;
           Settle 2 (ReplyFetch (Axios.Rejected no_reply))]
      after_quota_failure in
  Reachable w /\
  suggestions (app w) = [] /\
  error (app w) = Some "No response from server. Please check your connection." /\
  snackbar_open (app w) = false.
Proof.
  split; [|repeat split; reflexivity].
  apply reach_step, reach_step, reach_step, reach_step, reach_step, reach_start.
Qed.

Lemma C6_fetch_failure_witness :
  let e := server_error 500 "INTERNAL SERVER ERROR" "boom" in
  let s := app after_quota_failure in
  let rest := run (at_await (getSuggestions None "python" "x") (Axios.Rejected e)) s in
  (forall resp, Axios.response e = Some resp -> Axios.body resp <> None) /\
  isQuotaError s = true /\
  exists m,
    getSuggestions_errorMessage (AxiosErr e) = Yields m /\
    Js.truthy m = true /\
    snd rest = Finished tt /\
    suggestions (fst rest) = [] /\
    error (fst rest) = Some m /\
    snackbar_open (fst rest) = negb (isQuotaError s) && negb (isConfigError s).
Proof.
  cbv zeta.
  assert (H : forall resp,
             Axios.response (server_error 500 "INTERNAL SERVER ERROR" "boom") = Some resp ->
             Axios.body resp <> None).
  { intros resp R. inversion R; subst resp. cbn. discriminate. }
  split; [exact H|]. split; [reflexivity|].
  exact (proj2 (C6_fetch_failure None "python" "x"
                  (server_error 500 "INTERNAL SERVER ERROR" "boom")
                  (app after_quota_failure)) H).
Defined.

(** C8, as stated, fails: right after page load Monaco has no model yet,
    the Clean button is enabled ([code] is the non-empty placeholder),
    and a click on it runs [handleCleanCode], which skips the call when
    [editor] is missing: no request is sent. *)
Lemma C8_clean_without_editor_counterexample :
  ~ (forall a w,
       Reachable w -> disabled (app w) = false ->
       exists c, sent (click a w) = (sent w ++ [c])%list).
Proof.
  intros H.
  destruct (H remove (start None) (reach_start None) eq_refl) as [c E].
  apply (f_equal (@List.length _)) in E. vm_compute in E. discriminate E.
Qed.

Lemma C8_configured_single_call_witness :
  Reachable one_of_each /\
  disabled (app one_of_each) = false /\
  Forall configured (sent one_of_each) /\
  (forall a,
     disabled (app one_of_each) = false ->
     (a = remove -> editor one_of_each <> None) ->
     exists c, sent (click a one_of_each) = (sent one_of_each ++ [c])%list /\
               is_ai_call c = true) /\
  (editor one_of_each = None -> sent (click remove one_of_each) = sent one_of_each) /\
  (forall id r, sent (settle id r one_of_each) = sent one_of_each).
Proof.
  assert (Hr : Reachable one_of_each)
    by apply reach_step, reach_step, reach_step, reach_step, reach_start.
  split; [exact Hr|]. split; [reflexivity|].
  exact (C8_configured_single_call Hr).
Defined.

(** What that page has put on the wire: the probe, a GET without a body
    and so without [Content-Type]; the suggestion fetch and the AI call,
    both POSTs with it; all three with [Accept] and the 10 s timeout. *)
Example one_of_each_on_the_wire :
  map (fun r => (Axios.method r, Axios.url r,
                 Axios.get_header "Content-Type" (Axios.headers r),
                 Axios.get_header "Accept" (Axios.headers r),
                 Axios.timeout r))
      (sent one_of_each) =
  [(Axios.GET, "http://127.0.0.1:5002/", None,
    Some "application/json", 10000%N);
   (Axios.POST, "http://127.0.0.1:5002/api/complete", Some "application/json",
    Some "application/json", 10000%N);
   (Axios.POST, "http://localhost:5002/api/ai/completion", Some "application/json",
    Some "application/json", 10000%N)].
Proof. reflexivity. Qed.

(** The defaults alone would put [Content-Type] on every request; the
    dispatch takes it off the one without a body. *)
Lemma probe_without_content_type (u : string) :
  Axios.get_header "Content-Type" (Axios.d_headers_common Axios.defaults)
    = Some "application/json" /\
  Axios.get_header "Content-Type" (Axios.headers (Axios.get Payload u)) = None /\
  ~ (Axios.get_header "Content-Type" (Axios.headers (Axios.get Payload u))
       = Some "application/json").
Proof. repeat split. intros H; discriminate H. Qed.

(** The Complete scenario of the specification, request side: one call,
    kind [completion], temperature 0.3, a system prompt naming python. *)
Example complete_scenario :
  let w := steps [Monaco (Some "def add(a, b):") None;
                  EditorChange (Some "def add(a, b):");
                  Click complete] (start None) in
  exists req,
    ai_calls w = [Axios.post "http://localhost:5002/api/ai/completion" (AIPayload req)] /\
    prompt req = "def add(a, b):" /\
    request_type req = Some Completion /\
    temperature req = Some 0.3%Q /\
    Js.includes (match system_prompt req with Some p => p | None => "" end) "python"
      = true.
Proof. eexists. repeat split; reflexivity. Qed.

End Scenarios.

(** ** Provenance: what is parked, pending and sent *)

Section ProvenanceFacts.

Import Api App.

Lemma Safe_at_await R A Pu Pc (m : Proc State Payload R A) o :
  Safe Pu Pc m -> Safe Pu Pc (at_await m o).
Proof.
  induction m as [a|e|u m IH|c k _]; cbn [at_await Safe]; auto.
  - intros [_ H]; auto.
  - intros [_ H]; auto.
Qed.

(** The entry points of the service set no state. *)
Lemma service_no_update Pu code lang :
  Safe Pu (fun _ => True) (AIService.getCodeCompletion State code lang) /\
  Safe Pu (fun _ => True) (AIService.generateDocumentation State code lang) /\
  Safe Pu (fun _ => True) (AIService.explainCode State code lang).
Proof.
  repeat split; intros [r|e]; exact I.
Qed.

Lemma on_ai_error_updates Pc prefix e :
  Safe action_update Pc (on_ai_error prefix e).
Proof.
  unfold on_ai_error. cbv zeta.
  destruct (Js.truthy _ && Js.includes _ "AI API Key Error");
    [cbn [Safe bind set]; repeat split; constructor|].
  destruct (Js.truthy _ && Js.includes _ "Configuration Error");
    cbn [Safe bind set]; repeat split; constructor.
Qed.

Lemma begin_action_updates Pc a :
  Safe (R := AICompletionResponse) action_update Pc (begin_action a).
Proof. cbn [begin_action Safe bind set]. repeat split; constructor. Qed.

(** An AI handler calls the setters of [action_update] only. *)
Lemma handler_updates a w :
  Safe action_update (fun _ => True) (handler a w).
Proof.
  assert (F : Safe action_update (fun _ : Axios.Request Payload => True)
                (set (R := AICompletionResponse) (setAiLoading false)))
    by (cbn; repeat split; constructor).
  assert (G : forall v, Safe action_update (fun _ : Axios.Request Payload => True)
                (set (R := AICompletionResponse) (setAiResponse v)))
    by (intros v; cbn; repeat split; constructor).
  destruct (service_no_update action_update (code (app w)) (language (app w)))
    as [S1 [S2 S3]].
  destruct a; cbn [handler];
    unfold handleCompleteCode, handleDocumentCode, handleExplainCode, handleCleanCode,
      handleAIError;
    (apply Safe_bind; [apply begin_action_updates | intros _]);
    (apply Safe_try_finally; [|exact F]);
    (apply Safe_try_catch; [|intros e; apply on_ai_error_updates]).
  - apply Safe_bind; [exact S1 | intros; apply G].
  - apply Safe_bind; [exact S2 | intros; apply G].
  - apply Safe_bind; [exact S3 | intros; apply G].
  - destruct (editor w) as [model|]; [|exact I].
    apply Safe_bind; [|intros; apply G].
    exact (proj1 (service_no_update action_update _ _)).
Qed.

(** [getSuggestions] calls the setters of [fetch_update] only. *)
Lemma getSuggestions_updates env lang v :
  Safe fetch_update (fun _ => True) (getSuggestions env lang v).
Proof.
  cbn [getSuggestions bind set try_catch try_finally await Safe].
  repeat split; try constructor.
  intros [r|e]; cbn [bind set try_catch try_finally Safe].
  - destruct (Api.suggestions r); cbn; repeat split; constructor.
  - destruct (getSuggestions_errorMessage (AxiosErr e));
      cbn [bind set try_catch try_finally Safe]; repeat split; constructor.
Qed.

Lemma handler_settled_final a w o : first_call (at_await (handler a w) o) = None.
Proof.
  eapply Safe_final_no_call. apply handler_settled_safe.
Qed.

Lemma getSuggestions_settled_final env lang v o :
  first_call (at_await (getSuggestions env lang v) o) = None.
Proof.
  eapply Safe_final_no_call. apply getSuggestions_settled_safe.
Qed.

(** Nothing touches the environment. *)
Lemma spawn_env R wrap (p : Proc State Payload R unit) w :
  env (spawn wrap p w) = env w.
Proof.
  unfold spawn. destruct (run p (app w)) as [s' [a|e|c k]]; reflexivity.
Qed.

Lemma fire_env ts w : env (fire ts w) = env w.
Proof.
  revert w; induction ts as [|t ts IH]; intros w; cbn [fire]; [reflexivity|].
  now rewrite IH, spawn_env.
Qed.

Lemma settle_env id r w : env (settle id r w) = env w.
Proof.
  unfold settle. destruct (take_waiting id (waiting w)) as [[k rest]|]; [|reflexivity].
  destruct k, r; try reflexivity; now rewrite spawn_env.
Qed.

Lemma step_env e w : env (step e w) = env w.
Proof.
  unfold step.
  rewrite (proj1 (proj2 (proj2 (Sync_frame (render_sync _ (sync_refl (react e w))))))).
  pose proof (react_sync e w) as S.
  destruct e; cbn [react] in *;
    try exact (proj1 (proj2 (proj2 (Sync_frame S)))).
  - unfold elapse. now rewrite fire_env.
  - unfold click. destruct (disabled (app w)); [reflexivity | apply spawn_env].
  - apply settle_env.
  - reflexivity.
  - destruct (snackbar_open (app w)); reflexivity.
Qed.

Lemma spawn_prov R (wrap : (Axios.Outcome R -> Proc State Payload R unit) -> Waiting)
    (p : Proc State Payload R unit) w :
  Provenance w ->
  (forall c, first_call p = Some c -> known_call (env w) c) ->
  (forall c k, first_call p = Some c -> (forall o, k o = at_await p o) ->
     genuine (env w) (wrap k)) ->
  Provenance (spawn wrap p w).
Proof.
  intros [P1 P2 P3] Hc Hk.
  destruct (first_call p) as [c|] eqn:F.
  - destruct (spawn_parked wrap p w F) as [k [K E]]. rewrite E.
    split; cbn [env timers waiting sent]; auto.
    + apply Forall_app; split; [exact P2|]. constructor; [|constructor].
      cbn [snd]. now apply (Hk c k).
    + apply Forall_app; split; [exact P3|]. constructor; [|constructor]. now apply Hc.
  - rewrite (spawn_final wrap p w F). split; assumption.
Qed.

Lemma timer_spawn_prov t w :
  genuine_timer (env w) t -> Provenance w -> Provenance (spawn WaitFetch (callback t) w).
Proof.
  intros [lang [v E]] P. rewrite E. apply spawn_prov; auto.
  - intros c F. inversion F; subst. right; left. now exists lang, v.
  - intros c k _ K. now exists lang, v.
Qed.

Lemma fire_prov ts w :
  Forall (genuine_timer (env w)) ts -> Provenance w -> Provenance (fire ts w).
Proof.
  revert w; induction ts as [|t ts IH]; intros w Ht P; cbn [fire]; [exact P|].
  inversion Ht; subst. apply IH.
  - now rewrite spawn_env.
  - now apply timer_spawn_prov.
Qed.

Lemma handler_known_call a w c :
  first_call (handler a w) = Some c -> known_call (env w) c.
Proof.
  intros F. right; right.
  destruct a; cbn [handler] in F.
  4: { unfold handleCleanCode in F. destruct (editor w); [|discriminate F].
       inversion F; subst. eexists; reflexivity. }
  all: inversion F; subst; eexists; reflexivity.
Qed.

Lemma take_waiting_count id l k rest :
  take_waiting id l = Some (k, rest) ->
  count_actions l =
  count_actions rest + match k with WaitAction _ => 1 | _ => 0 end.
Proof.
  revert k rest; induction l as [|[i k0] l IH]; intros k rest H; cbn [take_waiting] in H.
  - discriminate.
  - destruct (Nat.eqb i id).
    + inversion H; subst. destruct k; cbn [count_actions]; lia.
    + destruct (take_waiting id l) as [[k' rest']|]; [|discriminate].
      inversion H; subst. specialize (IH k rest' eq_refl).
      destruct k0; cbn [count_actions]; lia.
Qed.

(** In a world with provenance, a reply either finds nothing to resume or
    resumes one of the three asynchronous functions, which then runs to
    its end. *)
Lemma settle_cases id r w :
  Provenance w ->
  settle id r w = w \/
  exists k rest,
    take_waiting id (waiting w) = Some (k, rest) /\
    Resumes w rest r (settle id r w).
Proof.
  intros [P1 P2 P3]. unfold settle.
  destruct (take_waiting id (waiting w)) as [[k rest]|] eqn:T; [|now left].
  destruct (take_waiting_In _ _ T) as [I1 _].
  pose proof (take_waiting_count _ _ T) as C.
  rewrite Forall_forall in P2. specialize (P2 _ I1). cbn [snd] in P2.
  destruct k as [k|k|k], r as [o|o|o]; try (now left); right;
    exists (ltac:(first [exact (WaitAction k) | exact (WaitFetch k) | exact (WaitProbe k)])), rest;
    (split; [reflexivity|]); cbn [genuine] in P2.
  - destruct P2 as [a [w0 [F K]]]. rewrite K.
    rewrite spawn_final by apply handler_settled_final.
    apply (resumes_action w rest a w0 o); [exact F | lia].
  - destruct P2 as [lang [v K]]. rewrite K.
    rewrite spawn_final by apply getSuggestions_settled_final.
    apply (resumes_fetch w rest lang v o). lia.
  - rewrite P2.
    rewrite spawn_final by (destruct o; reflexivity).
    apply (resumes_probe w rest o). lia.
Qed.

Lemma settle_prov id r w : Provenance w -> Provenance (settle id r w).
Proof.
  intros P. destruct (settle_cases id r P) as [E|[k [rest [T H]]]]; [now rewrite E|].
  destruct (take_waiting_In _ _ T) as [_ I2].
  assert (Q : Provenance (resumed (app w) rest w)).
  { destruct P as [P1 P2 P3]. split; cbn; auto.
    rewrite Forall_forall in *. auto. }
  destruct H; destruct Q as [Q1 Q2 Q3]; split; assumption.
Qed.

Lemma onChange_prov value w : Provenance w -> Provenance (onChange value w).
Proof.
  intros P. unfold onChange, handleEditorChange.
  destruct value as [v|]; [|exact P]. destruct (Js.truthy v); [|exact P].
  cbn [fst]. destruct P as [P1 P2 P3]. split; cbn; auto.
  apply Forall_app; split; [exact P1|]. constructor; [|constructor].
  now exists (language (app w)), v.
Qed.

Lemma Sync_prov w w' : Sync w w' -> Provenance w -> Provenance w'.
Proof.
  intros H P. induction H as [|m sel w' _ IH|v w' _ _ IH|value w' _ IH]; auto.
  - destruct IH; split; assumption.
  - destruct IH; split; assumption.
  - now apply onChange_prov.
Qed.

Lemma step_prov e w : Provenance w -> Provenance (step e w).
Proof.
  intros P. unfold step.
  apply (Sync_prov (render_sync _ (sync_refl (react e w)))).
  pose proof (react_sync e w) as S.
  destruct e; cbn [react] in *; try exact (Sync_prov S P).
  - unfold elapse. apply fire_prov; cbn [env].
    + apply Forall_filter_keep, P.
    + destruct P as [P1 P2 P3]. split; cbn; auto. now apply Forall_filter_keep.
  - unfold click. destruct (disabled (app w)); [exact P|].
    apply spawn_prov; auto.
    + apply handler_known_call.
    + intros c k F K. exists a, w. split; [congruence | exact K].
  - now apply settle_prov.
  - destruct P; split; assumption.
  - destruct (snackbar_open (app w)); [|exact P]. destruct P; split; assumption.
Qed.

Lemma start_prov env : Provenance (start env).
Proof.
  unfold start. apply spawn_prov.
  - split; constructor.
  - intros c F. inversion F; subst. now left.
  - intros c k _ K. exact K.
Qed.

Lemma reachable_prov w : Reachable w -> Provenance w.
Proof.
  induction 1 as [env|e w _ IH]; [apply start_prov | now apply step_prov].
Qed.

End ProvenanceFacts.

(** ** What asynchronous code leaves alone *)

Section AsyncKeeps.

Import Api App.

Variable Q : State -> Prop.

Section Fetch.

Hypothesis Q_fetch : forall u x, fetch_update u -> Q x -> Q (u x).

Lemma fetch_run_keeps env lang v s :
  Q s -> Q (fst (run (getSuggestions env lang v) s)).
Proof.
  intros H.
  exact (proj1 (Safe_run _ _ Q _ s Q_fetch (getSuggestions_updates env lang v) H)).
Qed.

Lemma fetch_resume_keeps env lang v o s :
  Q s -> Q (fst (run (at_await (getSuggestions env lang v) o) s)).
Proof.
  intros H.
  exact (proj1 (Safe_run _ _ Q _ s Q_fetch
                  (@Safe_at_await _ _ _ _ _ o (getSuggestions_updates env lang v)) H)).
Qed.

Lemma fire_keeps_fetch ts w :
  Forall (genuine_timer (env w)) ts -> Q (app w) -> Q (app (fire ts w)).
Proof.
  revert w; induction ts as [|t ts IH]; intros w Ht H; cbn [fire]; [exact H|].
  inversion Ht as [|t' ts' [lang [v E]] Hts]; subst. apply IH.
  - now rewrite spawn_env.
  - rewrite spawn_app, E. now apply fetch_run_keeps.
Qed.

Lemma elapse_keeps_fetch ms w : Provenance w -> Q (app w) -> Q (app (elapse ms w)).
Proof.
  intros P H. unfold elapse. apply fire_keeps_fetch; cbn [env app]; [|exact H].
  apply Forall_filter_keep, P.
Qed.

End Fetch.

Hypothesis Q_fetch : forall u x, fetch_update u -> Q x -> Q (u x).
Hypothesis Q_action : forall u x, action_update u -> Q x -> Q (u x).

Lemma action_run_keeps a w s : Q s -> Q (fst (run (handler a w) s)).
Proof.
  intros H. exact (proj1 (Safe_run _ _ Q _ s Q_action (handler_updates a w) H)).
Qed.

Lemma action_resume_keeps a w o s :
  Q s -> Q (fst (run (at_await (handler a w) o) s)).
Proof.
  intros H.
  exact (proj1 (Safe_run _ _ Q _ s Q_action
                  (@Safe_at_await _ _ _ _ _ o (handler_updates a w)) H)).
Qed.

Lemma settle_keeps_async id r w : Provenance w -> Q (app w) -> Q (app (settle id r w)).
Proof.
  intros P H. destruct (settle_cases id r P) as [E|[k [rest [_ C]]]]; [now rewrite E|].
  destruct C; cbn [app resumed].
  - now apply action_resume_keeps.
  - now apply fetch_resume_keeps.
  - destruct o; exact H.
Qed.

Lemma click_keeps_async a w : Q (app w) -> Q (app (click a w)).
Proof.
  intros H. unfold click. destruct (disabled (app w)); [exact H|].
  rewrite spawn_app. now apply action_run_keeps.
Qed.

End AsyncKeeps.

(** ** The mirrored code and the spinner *)

Section PageInvariants.

Import Api App.

Lemma Sync_code w w' :
  Sync w w' -> Js.truthy (code (app w)) = true -> Js.truthy (code (app w')) = true.
Proof.
  intros H Hw. induction H as [|m sel w' _ IH|v w' T _ IH|value w' _ IH]; auto.
  rewrite onChange_app. destruct value as [v|]; [|exact IH].
  destruct (Js.truthy v) eqn:T; [exact T | exact IH].
Qed.

Lemma Sync_flight w w' :
  Sync w w' ->
  in_flight w' = in_flight w /\ aiLoading (app w') = aiLoading (app w).
Proof.
  intros H. split.
  - unfold in_flight. now rewrite (proj1 (proj2 (Sync_frame H))).
  - exact (@Sync_state (fun s => aiLoading s = aiLoading (app w)) w w'
             (fun v s Hs => Hs) H eq_refl).
Qed.

(** X1. The mirrored [code] state is never empty: it starts as the
    placeholder, [handleEditorChange] ignores empty values, and the two
    insertion handlers store a non-empty response. So the [!code] part of
    the buttons' [disabled] test never decides anything. *)
Theorem code_never_empty (w : World) :
  Reachable w ->
  Js.truthy (code (app w)) = true /\
  disabled (app w) = aiLoading (app w) || isQuotaError (app w) || isConfigError (app w).
Proof.
  intros Hr.
  assert (T : Js.truthy (code (app w)) = true).
  { induction Hr as [env|e w Hr IH].
    - unfold start. rewrite spawn_app. reflexivity.
    - pose proof (reachable_prov Hr) as P.
      set (Q := fun s => Js.truthy (code s) = true).
      assert (QF : forall u x, fetch_update u -> Q x -> Q (u x))
        by (intros u x [v|v|v] H; exact H).
      assert (QA : forall u x, action_update u -> Q x -> Q (u x))
        by (intros u x [v|v|v|v|v|v] H; exact H).
      unfold step.
      apply (Sync_code (render_sync _ (sync_refl (react e w)))).
      pose proof (react_sync e w) as S.
      destruct e; cbn [react] in *; try exact (Sync_code S IH).
      + now apply (elapse_keeps_fetch Q QF).
      + now apply (click_keeps_async Q QA).
      + now apply (settle_keeps_async Q QF QA).
      + exact IH.
      + destruct (snackbar_open (app w)); exact IH. }
  split; [exact T|]. unfold disabled. rewrite T. cbn [negb].
  now rewrite orb_false_r.
Qed.

Lemma count_actions_app l1 l2 :
  count_actions (l1 ++ l2) = count_actions l1 + count_actions l2.
Proof.
  induction l1 as [|[i k] l1 IH]; [reflexivity|].
  cbn [Datatypes.app count_actions]. destruct k; rewrite IH; reflexivity.
Qed.

Lemma fire_in_flight ts w :
  Forall (genuine_timer (env w)) ts -> in_flight (fire ts w) = in_flight w.
Proof.
  revert w; induction ts as [|t ts IH]; intros w Ht; cbn [fire]; [reflexivity|].
  inversion Ht as [|t' ts' [lang [v E]] Hts]; subst.
  rewrite IH by now rewrite spawn_env.
  rewrite E.
  destruct (spawn_parked WaitFetch _ w (getSuggestions_call (env w) lang v))
    as [k [_ S]].
  rewrite S. unfold in_flight. cbn [waiting]. rewrite count_actions_app.
  cbn [count_actions]. lia.
Qed.

(** A handler that makes its call is parked with the spinner on; one that
    makes none (Clean without an editor model) ends with the spinner off. *)
Lemma handler_parks_loading a w s c :
  first_call (handler a w) = Some c -> aiLoading (fst (run (handler a w) s)) = true.
Proof.
  destruct a; cbn [handler]; try reflexivity.
  unfold handleCleanCode. destruct (editor w); [reflexivity | discriminate].
Qed.

Lemma handler_skips_loading a w s :
  first_call (handler a w) = None -> aiLoading (fst (run (handler a w) s)) = false.
Proof.
  destruct a; cbn [handler]; try discriminate.
  unfold handleCleanCode. destruct (editor w); [discriminate | reflexivity].
Qed.

Lemma handler_settles a w (o : Axios.Outcome AICompletionResponse) (s : State) :
  first_call (handler a w) <> None ->
  snd (run (at_await (handler a w) o) s) = Finished tt /\
  aiLoading (fst (run (at_await (handler a w) o) s)) = false.
Proof.
  intros F.
  assert (E : forall prefix e,
            snd (run (try_finally (on_ai_error prefix e)
                        (set (R := AICompletionResponse) (setAiLoading false))) s)
              = Finished tt /\
            aiLoading (fst (run (try_finally (on_ai_error prefix e)
                        (set (R := AICompletionResponse) (setAiLoading false))) s))
              = false).
  { intros prefix e. unfold on_ai_error. cbv zeta.
    destruct (Js.truthy _ && Js.includes _ "AI API Key Error"); [split; reflexivity|].
    destruct (Js.truthy _ && Js.includes _ "Configuration Error"); split; reflexivity. }
  destruct a; cbn [handler] in *.
  4: { unfold handleCleanCode, handleAIError in *.
       destruct (editor w) as [model|]; [|now elim F].
       destruct o as [r|e]; [split; reflexivity | apply E]. }
  all: destruct o as [r|e]; [split; reflexivity | apply E].
Qed.

(** X6. Whatever the reply to its call, success or any rejection, an AI
    handler runs to its end without an uncaught error and turns the
    spinner off. *)
Theorem handler_always_finishes a w (o : Axios.Outcome AICompletionResponse) (s : State) :
  first_call (handler a w) <> None ->
  snd (run (at_await (handler a w) o) s) = Finished tt /\
  aiLoading (fst (run (at_await (handler a w) o) s)) = false.
Proof. apply handler_settles. Qed.

(** X2. The spinner state counts the AI requests in flight: in every
    state the page can reach, exactly one AI request awaits its reply
    when [aiLoading] is on and none when it is off. In particular two AI
    requests are never in flight together. *)
Theorem one_action_in_flight (w : World) :
  Reachable w ->
  in_flight w = (if aiLoading (app w) then 1 else 0) /\ in_flight w <= 1.
Proof.
  intros Hr.
  assert (T : in_flight w = if aiLoading (app w) then 1 else 0).
  { induction Hr as [env|e w Hr IH].
    - reflexivity.
    - pose proof (reachable_prov Hr) as P.
      assert (QF : forall b u x, fetch_update u -> aiLoading x = b -> aiLoading (u x) = b)
        by (intros b u x [v|v|v] H; exact H).
      unfold step.
      destruct (Sync_flight (render_sync (code (app w)) (sync_refl (react e w))))
        as [R1 R2].
      rewrite R1, R2. clear R1 R2.
      pose proof (react_sync e w) as Sy.
      destruct e; cbn [react] in *;
        try (destruct (Sync_flight Sy) as [S1 S2]; rewrite S1, S2; exact IH).
      + unfold elapse. rewrite fire_in_flight by (apply Forall_filter_keep, P).
        rewrite (fire_keeps_fetch (fun s => aiLoading s = aiLoading (app w)));
          [exact IH | apply QF | apply Forall_filter_keep, P | reflexivity].
      + unfold click. destruct (disabled (app w)) eqn:D; [exact IH|].
        assert (L : aiLoading (app w) = false).
        { unfold disabled in D. destruct (aiLoading (app w)); [discriminate D | reflexivity]. }
        rewrite L in IH. rewrite spawn_app.
        destruct (first_call (handler a w)) as [c|] eqn:F.
        * rewrite (handler_parks_loading a w (app w) F).
          destruct (spawn_parked WaitAction (handler a w) w F) as [k [_ S]].
          rewrite S. unfold in_flight in *. cbn [waiting].
          rewrite count_actions_app, IH. reflexivity.
        * rewrite (handler_skips_loading a w (app w) F).
          rewrite (spawn_final WaitAction (handler a w) w F). exact IH.
      + destruct (settle_cases id r P) as [E|[k [rest [_ C]]]]; [now rewrite E|].
        unfold in_flight in *.
        destruct C as [a w0 o F C|lang v o C|o C]; cbn [app waiting resumed].
        * rewrite (proj2 (handler_settles a w0 o (app w) F)).
          destruct (aiLoading (app w)); lia.
        * rewrite (fetch_resume_keeps (fun s => aiLoading s = aiLoading (app w)));
            [lia | apply QF | reflexivity].
        * destruct o; cbn; lia.
      + exact IH.
      + destruct (snackbar_open (app w)); exact IH. }
  split; [exact T|]. rewrite T. destruct (aiLoading (app w)); lia.
Qed.

End PageInvariants.

(** ** Requests, replies and the editor *)

Section PageFacts.

Import Api App.

(** X3. Every request the page has sent is one of three: the mount probe,
    a GET to the backend root; a suggestion request, a POST to
    [/api/complete] under the configured backend URL; or an AI request, a
    POST to the fixed [http://localhost:5002/api/ai/completion], whatever
    backend URL the environment configures. *)
Theorem requests_routed (w : World) (c : Axios.Request Payload) :
  Reachable w ->
  In c (sent w) ->
  match Axios.data c with
  | None =>
      Axios.method c = Axios.GET /\ Axios.url c = BACKEND_URL (env w) ++ "/"
  | Some (CompletePayload _ _) =>
      Axios.method c = Axios.POST /\
      Axios.url c = BACKEND_URL (env w) ++ "/api/complete"
  | Some (AIPayload _) =>
      Axios.method c = Axios.POST /\
      Axios.url c = "http://localhost:5002/api/ai/completion"
  end.
Proof.
  intros Hr Hc. pose proof (prov_sent (reachable_prov Hr)) as P.
  rewrite Forall_forall in P. specialize (P c Hc).
  destruct P as [E|[[lang [v E]]|[req E]]]; subst c; split; reflexivity.
Qed.

(** A pending suggestion request, answered. *)
Lemma settle_fetch id k rest o w :
  Provenance w ->
  take_waiting id (waiting w) = Some (WaitFetch k, rest) ->
  exists lang v,
    settle id (ReplyFetch o) w =
    resumed (fst (run (at_await (getSuggestions (env w) lang v) o) (app w))) rest w.
Proof.
  intros P T. destruct (take_waiting_In _ _ T) as [I1 _].
  pose proof (prov_waiting P) as G. rewrite Forall_forall in G.
  destruct (G _ I1) as [lang [v K]]. exists lang, v.
  unfold settle. rewrite T, K.
  now rewrite spawn_final by apply getSuggestions_settled_final.
Qed.

(** X4. A reply to any suggestion request still pending, however old,
    replaces the list with its [suggestions]: nothing checks that the
    reply answers the latest edit, so the reply that arrives last wins. *)
Theorem any_pending_reply_replaces_list (w : World) id k rest l :
  Reachable w ->
  take_waiting id (waiting w) = Some (WaitFetch k, rest) ->
  let w' := settle id (ReplyFetch (Axios.Resolved {| Api.suggestions := Some l |})) w in
  suggestions (app w') = l /\ loading (app w') = false /\ waiting w' = rest.
Proof.
  intros Hr T w'. subst w'.
  destruct (@settle_fetch id k rest (Axios.Resolved {| Api.suggestions := Some l |})
              w (reachable_prov Hr) T) as [lang [v E]].
  rewrite E. repeat split; reflexivity.
Qed.

(** The state a handler leaves when it parks at its call. *)
Lemma handler_parked_state a w s c :
  first_call (handler a w) = Some c ->
  fst (run (handler a w) s) =
  setIsConfigError false
    (setIsQuotaError false
       (setError None
          (setAiResponse None (setAiAction (Some a) (setAiLoading true s))))).
Proof.
  destruct a; cbn [handler]; try reflexivity.
  unfold handleCleanCode. destruct (editor w); [reflexivity | discriminate].
Qed.

Lemma handler_resolved a w r s :
  first_call (handler a w) <> None ->
  fst (run (at_await (handler a w) (Axios.Resolved r)) s)
    = setAiLoading false (setAiResponse (Some (AIService.with_provider r)) s).
Proof.
  intros F. destruct a; cbn [handler] in *; try reflexivity.
  unfold handleCleanCode in *. destruct (editor w); [reflexivity | now elim F].
Qed.

(** X5. An enabled button is clicked and its call succeeds before
    anything else happens: the response text (with the provider line, if
    any) is stored, the action is recorded, the spinner is off, the error
    and both blocking flags are clear, and code, language and the
    suggestion list are as they were. *)
Theorem click_then_resolved a (w : World) (r : AICompletionResponse) :
  Reachable w ->
  disabled (app w) = false ->
  (a = remove -> editor w <> None) ->
  app (settle (List.length (sent w)) (ReplyAction (Axios.Resolved r)) (click a w)) =
  {| code := code (app w);
     language := language (app w);
     suggestions := suggestions (app w);
     error := None;
     loading := loading (app w);
     aiResponse :=
       Some (response r ++
               match provider r with
               | Some p =>
                   if Js.truthy p then Js.nl ++ Js.nl ++ " (via " ++ p ++ ")" else ""
               | None => ""
               end);
     aiLoading := false;
     aiAction := Some a;
     isQuotaError := false;
     isConfigError := false |}.
Proof.
  intros Hr D Hed. pose proof (reachable_inv Hr) as I.
  unfold click. rewrite D.
  destruct (@handler_first_call a w Hed) as [c F].
  destruct (spawn_parked WaitAction (handler a w) w F) as [k [K E]].
  rewrite E. unfold settle. cbn [waiting].
  rewrite (take_waiting_last (WaitAction k) (inv_keys I)).
  rewrite K, spawn_final by apply handler_settled_final.
  cbn [app with_app].
  rewrite handler_resolved by congruence.
  rewrite (handler_parked_state a w (app w) F), with_provider_eq.
  reflexivity.
Qed.

(** X7. A rejection that brings no error text (no reply at all, a reply
    without a body, a body without [error], or an empty [error]) is
    re-thrown by [getCompletion] as it is; unless the transport message
    itself contains one of the two markers, the handler then raises no
    flag and shows its prefix followed by the transport message, or by
    "Please try again later." when that message is empty. *)
Theorem rejection_without_text prefix (e : Axios.Error) (s : State) :
  match Axios.response e with
  | None => True
  | Some resp =>
      match Axios.body resp with
      | None => True
      | Some b => Axios.error b = None \/ Axios.error b = Some ""
      end
  end ->
  Js.includes (Axios.message e) "AI API Key Error" = false ->
  Js.includes (Axios.message e) "Configuration Error" = false ->
  AIService.getCompletion_catch (AxiosErr e) = AxiosErr e /\
  classify prefix e s =
    setError (Some (prefix ++ Js.or_else (Axios.message e) "Please try again later.")) s.
Proof.
  intros H Hk Hc.
  assert (E : AIService.getCompletion_catch (AxiosErr e) = AxiosErr e).
  { unfold AIService.getCompletion_catch.
    destruct (Axios.response e) as [resp|]; [|reflexivity].
    destruct (Axios.body resp) as [b|]; [|reflexivity].
    destruct H as [-> | ->]; reflexivity. }
  split; [exact E|].
  rewrite classify_eq, E. cbn [error_message]. cbv zeta.
  now rewrite Hk, Hc, !andb_false_r.
Qed.

Lemma render_fields previous w :
  app (render previous w) = app w /\
  timers (render previous w) = timers w /\
  sent (render previous w) = sent w /\
  now (render previous w) = now w /\
  env (render previous w) = env w.
Proof.
  unfold render.
  destruct (String.eqb (code (app w)) previous); [repeat split|].
  destruct (editor w) as [model|]; [|repeat split].
  destruct (String.eqb model (code (app w))); repeat split.
Qed.

(** A render with the model already equal to [code], with no model, or
    with [code] unchanged, writes nothing. *)
Lemma render_nothing previous w :
  code (app w) = previous \/ editor w = None \/ editor w = Some (code (app w)) ->
  render previous w = w.
Proof.
  intros H. unfold render.
  destruct (String.eqb_spec (code (app w)) previous) as [_|N]; [reflexivity|].
  destruct H as [H|[H|H]]; [now elim N | now rewrite H |].
  rewrite H. now rewrite String.eqb_refl.
Qed.





(** X10. Clean goes through the completion entry point: with an editor
    model it posts one request of kind completion at temperature 0.3
    whose prompt is the fixed instruction, two newlines, and the selected
    text of the model, or the mirrored [code] when there is no selection;
    without an editor model it posts nothing. *)
Theorem clean_request (st : State) (model : string) (sel : option Range) :
  (exists req,
     first_call (handleCleanCode st (Some model) sel)
       = Some (Axios.post "http://localhost:5002/api/ai/completion" (AIPayload req)) /\
     prompt req =
       "Please help me remove unnecessary code while keeping the core functionality:"
         ++ Js.nl ++ Js.nl ++
         match sel with
         | Some r => substring (startOffset r) (endOffset r - startOffset r) model
         | None => code st
         end /\
     request_type req = Some Completion /\
     temperature req = Some 0.3%Q /\
     Api.language req = Some (language st) /\
     system_prompt req = Some (AIService.completion_systemPrompt (language st))) /\
  first_call (handleCleanCode st None sel) = None.
Proof.
  split; [|reflexivity].
  eexists. split; [reflexivity|]. destruct sel; repeat split.
Qed.

Lemma fire_sent ts w :
  sent (fire ts w) =
  (sent w ++
     flat_map (fun t => match first_call (callback t) with
                        | Some c => [c]
                        | None => []
                        end) ts)%list.
Proof.
  revert w; induction ts as [|t ts IH]; intros w; cbn [fire flat_map].
  - now rewrite app_nil_r.
  - rewrite IH, spawn_sent. now rewrite <- app_assoc.
Qed.

(** What a lapse of time sends: the calls of the timers that are due. *)
Lemma elapse_sent ms w :
  sent (elapse ms w) =
  (sent w ++
     flat_map (fun t => match first_call (callback t) with
                        | Some c => [c]
                        | None => []
                        end)
       (filter (fun x => Nat.leb (due x) (now w + ms)) (timers w)))%list.
Proof. unfold elapse. now rewrite fire_sent. Qed.

(** X11. The suggestion request carries the language that was active
    when the edit was made: a language change between the edit and the
    firing of its timer does not reach the request. *)
Theorem fetch_language_is_captured (w : World) (v l : string) :
  timers w = [] ->
  Js.truthy v = true ->
  sent (steps [EditorChange (Some v); SelectLanguage l; Elapse 500] w) =
    (sent w ++
       [Axios.post (BACKEND_URL (env w) ++ "/api/complete")
          (CompletePayload v (language (app w)))])%list.
Proof.
  intros Ht Tv. cbn [steps].
  set (w1 := step (EditorChange (Some v)) w).
  set (w2 := step (SelectLanguage l) w1).
  set (t := {| timer_id := next_timer w; due := now w + 500;
               callback := getSuggestions (env w) (language (app w)) v |}).
  assert (F1 : timers w1 = [t] /\ sent w1 = sent w /\ now w1 = now w).
  { unfold w1, step.
    destruct (render_fields (code (app w)) (react (EditorChange (Some v)) w))
      as [_ [B [C [D _]]]].
    rewrite B, C, D. cbn [react]. unfold onChange, handleEditorChange.
    rewrite Tv. cbn [fst timers sent now setTimeout with_app]. rewrite Ht.
    repeat split. }
  assert (F2 : timers w2 = [t] /\ sent w2 = sent w /\ now w2 = now w).
  { unfold w2, step.
    destruct (render_fields (code (app w1)) (react (SelectLanguage l) w1))
      as [_ [B [C [D _]]]].
    rewrite B, C, D. cbn [react timers sent now with_app]. exact F1. }
  destruct F2 as [T2 [S2 N2]].
  unfold step.
  rewrite (proj1 (proj2 (proj2 (render_fields (code (app w2)) (react (Elapse 500) w2))))).
  cbn [react]. rewrite elapse_sent, T2, S2, N2.
  cbn [filter due t]. rewrite Nat.leb_refl. reflexivity.
Qed.

(** X14. The AI actions read the mirrored [code], not the editor: after
    the editor has been cleared (a change to the empty text), a click on
    an enabled Complete still posts the last non-empty text, in the
    active language. *)
Theorem complete_after_clearing_sends_old_code (w : World) :
  disabled (app w) = false ->
  sent (steps [EditorChange (Some ""); Click complete] w) =
    (sent w ++
       [Axios.post "http://localhost:5002/api/ai/completion"
          (AIPayload (AIService.getCodeCompletion_request
                        (code (app w)) (language (app w))))])%list.
Proof.
  intros D. cbn [steps]. unfold step at 2. cbn [react].
  unfold onChange, handleEditorChange. cbn [Js.truthy fst].
  rewrite render_nothing by (left; reflexivity).
  unfold step. rewrite (proj1 (proj2 (proj2 (render_fields _ _)))). cbn [react].
  unfold click. rewrite D. rewrite spawn_sent. reflexivity.
Qed.

(** X13. The reply to the mount probe, whatever it is and whenever it
    comes, changes nothing in the page state. *)
Theorem probe_outcome_ignored (w : World) id (o : Axios.Outcome string) :
  Reachable w ->
  app (settle id (ReplyProbe o) w) = app w /\
  sent (settle id (ReplyProbe o) w) = sent w.
Proof.
  intros Hr.
  destruct (settle_cases id (ReplyProbe o) (reachable_prov Hr))
    as [E|[k [rest [_ C]]]]; [now rewrite E|].
  inversion C as [| |o' Hc Ho Hw]; subst. cbn [app sent resumed].
  destruct o; split; reflexivity.
Qed.

End PageFacts.

(** ** Instances *)

Section Instances.

Import Api App.

Ltac reach := cbn [steps]; repeat apply reach_step; apply reach_start.

Lemma code_never_empty_witness :
  Reachable after_quota_failure /\
  Js.truthy (code (app after_quota_failure)) = true /\
  disabled (app after_quota_failure) =
    aiLoading (app after_quota_failure) || isQuotaError (app after_quota_failure)
      || isConfigError (app after_quota_failure).
Proof.
  assert (Hr : Reachable after_quota_failure) by (unfold after_quota_failure; reach).
  split; [exact Hr | exact (code_never_empty Hr)].
Defined.

Lemma one_action_in_flight_witness :
  Reachable (step (Click complete) (start None)) /\
  in_flight (step (Click complete) (start None)) =
    (if aiLoading (app (step (Click complete) (start None))) then 1 else 0) /\
  in_flight (step (Click complete) (start None)) <= 1.
Proof.
  assert (Hr : Reachable (step (Click complete) (start None))) by reach.
  split; [exact Hr | exact (one_action_in_flight Hr)].
Defined.

Lemma requests_routed_witness :
  let w := step (Click complete) (start (Some "https://backend.example")) in
  Reachable w /\
  exists c,
    In c (sent w) /\
    match Axios.data c with
    | None =>
        Axios.method c = Axios.GET /\ Axios.url c = BACKEND_URL (env w) ++ "/"
    | Some (CompletePayload _ _) =>
        Axios.method c = Axios.POST /\
        Axios.url c = BACKEND_URL (env w) ++ "/api/complete"
    | Some (AIPayload _) =>
        Axios.method c = Axios.POST /\
        Axios.url c = "http://localhost:5002/api/ai/completion"
    end.
Proof.
  cbv zeta.
  assert (Hr : Reachable (step (Click complete) (start (Some "https://backend.example"))))
    by reach.
  split; [exact Hr|].
  exists (Axios.post "http://localhost:5002/api/ai/completion"
            (AIPayload (AIService.getCodeCompletion_request
                          "# Start typing your code here..." "python"))).
  assert (Hin : In (Axios.post "http://localhost:5002/api/ai/completion"
                      (AIPayload (AIService.getCodeCompletion_request
                                    "# Start typing your code here..." "python")))
                   (sent (step (Click complete) (start (Some "https://backend.example")))))
    by (right; left; reflexivity).
  split; [exact Hin | exact (requests_routed _ Hr Hin)].
Defined.

Lemma any_pending_reply_replaces_list_witness :
  Reachable answered_out_of_order /\
  suggestions (app answered_out_of_order)
    = [{| completion := "for ab"; confidence := 0.9%Q |}] /\
  (exists k rest,
     take_waiting 1 (waiting answered_out_of_order) = Some (WaitFetch k, rest)) /\
  let w' :=
    settle 1 (ReplyFetch (Axios.Resolved
      {| Api.suggestions := Some [{| completion := "for a"; confidence := 0.5%Q |}] |}))
      answered_out_of_order in
  suggestions (app w') = [{| completion := "for a"; confidence := 0.5%Q |}] /\
  loading (app w') = false /\
  map fst (waiting w') = [0].
Proof.
  assert (Hr : Reachable answered_out_of_order) by (unfold answered_out_of_order; reach).
  split; [exact Hr|]. split; [reflexivity|].
  split; [eexists; eexists; reflexivity|].
  destruct (@any_pending_reply_replaces_list answered_out_of_order 1 _ _
              [{| completion := "for a"; confidence := 0.5%Q |}] Hr eq_refl)
    as [H1 [H2 H3]].
  cbv zeta. split; [exact H1|]. split; [exact H2|]. rewrite H3. reflexivity.
Defined.

Lemma click_then_resolved_witness :
  Reachable (start None) /\
  disabled (app (start None)) = false /\
  app (settle 1 (ReplyAction (Axios.Resolved
         {| response := " # adds two numbers"; response_model := "x"; timestamp := "t";
            provider := Some "gemini" |}))
       (click complete (start None))) =
  {| code := "# Start typing your code here...";
     language := "python";
     suggestions := [];
     error := None;
     loading := false;
     aiResponse := Some (" # adds two numbers" ++ Js.nl ++ Js.nl ++ " (via gemini)");
     aiLoading := false;
     aiAction := Some complete;
     isQuotaError := false;
     isConfigError := false |}.
Proof.
  split; [apply reach_start|]. split; [reflexivity|].
  apply (@click_then_resolved complete (start None)
           {| response := " # adds two numbers"; response_model := "x"; timestamp := "t";
              provider := Some "gemini" |} (reach_start None) eq_refl).
  discriminate.
Defined.

Lemma handler_always_finishes_witness :
  first_call (handler explain (start None)) <> None /\
  snd (run (at_await (handler explain (start None)) (Axios.Rejected no_reply)) initial)
    = Finished tt /\
  aiLoading (fst (run (at_await (handler explain (start None))
                         (Axios.Rejected no_reply)) initial)) = false.
Proof.
  assert (F : first_call (handler explain (start None)) <> None) by discriminate.
  split; [exact F|].
  exact (handler_always_finishes explain (start None) (Axios.Rejected no_reply) initial F).
Defined.

Lemma rejection_without_text_witness :
  AIService.getCompletion_catch (AxiosErr no_reply) = AxiosErr no_reply /\
  classify (prefix_of explain) no_reply initial =
    setError (Some ("Failed to explain code with AI: " ++ "timeout of 10000ms exceeded"))
      initial.
Proof.
  exact (rejection_without_text (prefix_of explain) no_reply initial I eq_refl eq_refl).
Defined.



Lemma fetch_language_is_captured_witness :
  timers (start None) = [] /\
  sent (steps [EditorChange (Some "x"); SelectLanguage "java"; Elapse 500] (start None)) =
    (sent (start None) ++
       [Axios.post ("http://127.0.0.1:5002" ++ "/api/complete")
          (CompletePayload "x" "python")])%list.
Proof.
  split; [reflexivity|].
  exact (@fetch_language_is_captured (start None) "x" "java" eq_refl eq_refl).
Defined.

Lemma burst_sends_every_edit_witness :
  Forall (fun e => Js.truthy (fst e) = true) [("a", 100); ("ab", 100); ("abc", 0)] /\
  List.length
    (sent (elapse 500 (steps (burst [("a", 100); ("ab", 100); ("abc", 0)]) (start None))))
    = 4 /\
  timers (elapse 500 (steps (burst [("a", 100); ("ab", 100); ("abc", 0)]) (start None)))
    = [].
Proof.
  assert (H : Forall (fun e => Js.truthy (fst e) = true)
                [("a", 100); ("ab", 100); ("abc", 0)])
    by (repeat constructor).
  split; [exact H|].
  exact (@burst_sends_every_edit None [("a", 100); ("ab", 100); ("abc", 0)] H).
Defined.

Lemma probe_outcome_ignored_witness :
  Reachable (start None) /\
  app (settle 0 (ReplyProbe (Axios.Rejected no_reply)) (start None)) = app (start None) /\
  sent (settle 0 (ReplyProbe (Axios.Rejected no_reply)) (start None)) = sent (start None).
Proof.
  split; [apply reach_start|].
  exact (probe_outcome_ignored 0 (Axios.Rejected no_reply) (reach_start None)).
Defined.

Lemma complete_after_clearing_sends_old_code_witness :
  disabled (app (start None)) = false /\
  sent (steps [EditorChange (Some ""); Click complete] (start None)) =
    (sent (start None) ++
       [Axios.post "http://localhost:5002/api/ai/completion"
          (AIPayload (AIService.getCodeCompletion_request
                        "# Start typing your code here..." "python"))])%list.
Proof.
  split; [reflexivity|].
  exact (@complete_after_clearing_sends_old_code (start None) eq_refl).
Defined.

End Instances.
